(** * rmsync: reconciling a list of wanted documents with a reMarkable tablet

    A shallow embedding of [rmsync.go] and the properties of its metadata
    scan, its uploader and its [Sync] loop.

    The Go standard library is the boundary of the model.  What the
    operating system, the JSON decoder and the network answer is supplied
    by a [Platform]; the functions of the package itself are transcribed
    statement by statement on top of it. *)

From Stdlib Require Import Ascii String.
From stdpp Require Import base option list strings gmap.

(** ** Go values *)

(** [[]byte] *)
Abbreviation bytes := (list Byte.byte).

(** The errno values the model tells apart. *)
Inductive Errno := ENOENT | EACCES | ELOOP | EIO.

(** The dynamic types of the [error] values this package can see. *)
Inductive error :=
| PathError (Op Path : string) (Err : Errno)   (* *os.PathError: Walk, ReadFile, Stat *)
| JSONError (msg : string)                     (* encoding/json decoding errors *)
| MultipartError (msg : string)                (* mime/multipart writer errors *)
| RequestError (msg : string)                  (* http.NewRequest: bad method or URL *)
| TransportError (msg : string).               (* *url.Error of Client.Get / Client.Do,
                                                  and errors reading a response body *)

(** A Go result pair [(v, err)] in which exactly one side is meaningful. *)
Inductive result (A : Type) :=
| Ok (v : A)
| Err (err : error).
Arguments Ok {A} v.
Arguments Err {A} err.

(** [os.IsNotExist]; a nil error is not a not-exist error. *)
Definition os_IsNotExist (err : option error) : bool :=
  match err with
  | Some (PathError _ _ ENOENT) => true
  | _ => false
  end.

Definition is_parse_error (err : error) : bool :=
  match err with
  | JSONError _ => true
  | _ => false
  end.

(** ** Strings and paths *)

Definition chars (s : string) : list ascii := list_ascii_of_string s.
Definition str (l : list ascii) : string := string_of_list_ascii l.

Definition IsPathSeparator (c : ascii) : bool := Ascii.eqb c "/".

(** The loop of [filepath.Ext]: [before] is [path[:i+1]] reversed (its head
    is [path[i]]) and [after] is [path[i+1:]]. *)
Fixpoint Ext_loop (before after : list ascii) : list ascii :=
  match before with
  | [] => []
  | c :: before' =>
      if IsPathSeparator c then []
      else if Ascii.eqb c "." then c :: after
      else Ext_loop before' (c :: after)
  end.

(** [filepath.Ext]: the suffix beginning at the final dot in the final
    element of the path; empty if there is no dot. *)
Definition Ext (path : string) : string :=
  str (Ext_loop (rev (chars path)) []).

(** [strings.HasSuffix] and [strings.TrimSuffix]. *)
Definition HasSuffix (s suffix : string) : bool :=
  (String.length suffix <=? String.length s)%nat &&
  String.eqb (str (drop (String.length s - String.length suffix) (chars s))) suffix.

Definition TrimSuffix (s suffix : string) : string :=
  if HasSuffix s suffix
  then str (take (String.length s - String.length suffix) (chars s))
  else s.

(** ** The data of the package *)

Definition BaseDir : string := "/home/root/.local/share/remarkable/xochitl/".

Record Metadata := {
  Deleted : bool;
  DastModified : string;
  Metadatamodified : bool;
  Modified : bool;
  Parent : string;
  Pinned : bool;
  Synced : bool;
  Metadata_Type : string;
  Version : Z;
  Metadata_VisibleName : string;
}.

Record RemarkableFile := {
  Filename : string;
  VisibleName : string;
}.

Record FileToSync := {
  FileToSync_Filename : string;
  FileToSync_Url : string;
}.

#[export] Instance RemarkableFile_eq_dec : EqDecision RemarkableFile.
Proof. solve_decision. Defined.

(** ** The platform *)

(** [os.FileInfo], as far as the walk callback looks at it. *)
Record FileInfo := { IsDir : bool }.

(** One call of the walk function: the path, and either the file's info or
    the error [filepath.Walk] met at that path. *)
Record Visit := {
  visit_path : string;
  visit_info : error + FileInfo;
}.

(** The bytes of a string; the line break of MIME, and the double quote. *)
Definition bytes_of (s : string) : bytes := list_byte_of_string s.

Definition crlf : string := String "013" (String "010" EmptyString).
Definition dquote : string := String "034" EmptyString.

Module multipart.
(** [quoteEscaper]: backslash and double quote get a backslash in front,
    carriage return and line feed are percent-encoded. *)
Definition escape_char (c : ascii) : string :=
  if Ascii.eqb c "\" then "\\"
  else if Ascii.eqb c "034" then "\" +:+ dquote
  else if Ascii.eqb c "013" then "%0D"
  else if Ascii.eqb c "010" then "%0A"
  else String c EmptyString.

(** [escapeQuotes] *)
Fixpoint escapeQuotes (s : string) : string :=
  match s with
  | EmptyString => EmptyString
  | String c s' => escape_char c +:+ escapeQuotes s'
  end.

(** A [multipart.Writer] together with the [bytes.Buffer] it writes to: the
    boundary, the bytes written so far, the part started last if it can
    still be written to ([lastpart]), and the number of parts created.
    Writes to a [bytes.Buffer] do not fail, so the only error left is a
    write to a part that is finished. *)
Record Writer := {
  Boundary : string;
  Buffer : bytes;
  Lastpart : option nat;
  Created : nat;
}.

Definition NewWriter (boundary : string) : Writer :=
  {| Boundary := boundary; Buffer := []; Lastpart := None; Created := 0 |}.

(** The lines of a MIME header, given with its keys in sorted order, which
    is the order [CreatePart] writes them in. *)
Fixpoint header_lines (header : list (string * string)) : string :=
  match header with
  | [] => EmptyString
  | (key, value) :: header' => key +:+ ": " +:+ value +:+ crlf +:+ header_lines header'
  end.

(** [w.CreatePart(header)]: finishes the part before, writes the delimiter
    (after a line break if a part came before), the header and an empty
    line; the handle returned is the number of the part. *)
Definition CreatePart (w : Writer) (header : list (string * string))
  : (nat * Writer) * option error :=
  let delimiter :=
    match Lastpart w with
    | Some _ => crlf +:+ "--" +:+ Boundary w +:+ crlf
    | None => "--" +:+ Boundary w +:+ crlf
    end in
  ((Created w,
    {| Boundary := Boundary w;
       Buffer := Buffer w ++ bytes_of delimiter ++ bytes_of (header_lines header)
                 ++ bytes_of crlf;
       Lastpart := Some (Created w);
       Created := S (Created w) |}),
   None).

(** The Content-Disposition of a file field. *)
Definition FileContentDisposition (fieldname filename : string) : string :=
  "form-data; name=" +:+ dquote +:+ escapeQuotes fieldname +:+ dquote
  +:+ "; filename=" +:+ dquote +:+ escapeQuotes filename +:+ dquote.

(** [w.CreateFormFile(fieldname, filename)] *)
Definition CreateFormFile (w : Writer) (fieldname filename : string)
  : (nat * Writer) * option error :=
  CreatePart w
    [("Content-Disposition", FileContentDisposition fieldname filename);
     ("Content-Type", "application/octet-stream")].

(** [part.Write(p)]: only the part started last can be written to, and
    only until the writer is closed. *)
Definition Write (w : Writer) (part : nat) (p : bytes) : Writer * option error :=
  if decide (Lastpart w = Some part)
  then ({| Boundary := Boundary w;
           Buffer := Buffer w ++ p;
           Lastpart := Lastpart w;
           Created := Created w |},
        None)
  else (w, Some (MultipartError "multipart: can't write to finished part")).

(** [w.Close()]: finishes the last part and writes the closing delimiter. *)
Definition Close (w : Writer) : Writer * option error :=
  ({| Boundary := Boundary w;
      Buffer := Buffer w ++ bytes_of (crlf +:+ "--" +:+ Boundary w +:+ "--" +:+ crlf);
      Lastpart := None;
      Created := Created w |},
   None).

(** [strings.ContainsAny] *)
Definition ContainsAny (s : string) (cutset : list ascii) : bool :=
  existsb (fun c => existsb (Ascii.eqb c) cutset) (list_ascii_of_string s).

(** The boundary as [FormDataContentType] writes it: between double quotes
    if it has one of the tspecials of RFC 2045 or a space. *)
Definition quoted_boundary (b : string) : string :=
  if ContainsAny b
       ["("; ")"; "<"; ">"; "@"; ","; ";"; ":"; "\"; "034"; "/"; "["; "]"; "?"; "="; " "]%char
  then dquote +:+ b +:+ dquote
  else b.

(** [w.FormDataContentType()] *)
Definition FormDataContentType (w : Writer) : string :=
  "multipart/form-data; boundary=" +:+ quoted_boundary (Boundary w).
End multipart.

(** [*http.Request] and [*http.Response], as far as the package uses them. *)
Record Request := {
  Method : string;
  URL : string;
  Header : gmap string (list string);
  (** the bytes of the buffer the request is made with *)
  Body : bytes;
}.

Record Response := {
  StatusCode : Z;
  (** what [ioutil.ReadAll] on the body yields *)
  ResponseBody : string + bytes;
}.

(** What the world outside the package answers.  [World] is the state of the
    tablet's file system, of the network and of the device's upload service. *)
Class Platform (World : Type) := {
  (** the calls [filepath.Walk] makes to its walk function under a root, in
      order, when the function never asks to skip *)
  walk_visits : World → string → list Visit;
  read_file : World → string → Errno + bytes;
  (** [None]: the path could be stat'ed *)
  stat : World → string → option Errno;
  (** the error message, or the decoded record *)
  json_decode : bytes → string + Metadata;
  (** the boundary [multipart.NewWriter] draws *)
  random_boundary : World → string * World;
  (** [http.NewRequest]'s validation of the method and the URL *)
  request_invalid : string → string → option string;
  http_get : string → World → (string + Response) * World;
  http_do : Request → World → option string * World;
}.

(** ** Control flow: state, and panics *)

(** A network call the package made, with what the platform answered. *)
Inductive Call :=
| CallGet (url : string) (reply : string + Response)
| CallDo (req : Request) (reply : option string).

(** The world, and the network calls made so far (oldest first). *)
Record State (World : Type) := {
  world : World;
  calls : list Call;
}.
Arguments world {World} s.
Arguments calls {World} s.

(** A Go call either returns or panics. *)
Inductive outcome (A : Type) :=
| Returned (v : A)
| Panicked (msg : string).
Arguments Returned {A} v.
Arguments Panicked {A} msg.

Definition Go (S A : Type) : Type := S → outcome A * S.

Definition ret {S A : Type} (v : A) : Go S A := fun s => (Returned v, s).

Definition panic {S A : Type} (msg : string) : Go S A := fun s => (Panicked msg, s).

Definition bind {S A B : Type} (m : Go S A) (k : A → Go S B) : Go S B :=
  fun s =>
    match m s with
    | (Returned v, s') => k v s'
    | (Panicked msg, s') => (Panicked msg, s')
    end.

(** [x ← m; k] is stdpp's notation for [bind m (fun x => k)]. *)
#[export] Instance Go_mret {S : Type} : MRet (Go S) := fun A => @ret S A.
#[export] Instance Go_mbind {S : Type} : MBind (Go S) := fun A B k m => @bind S A B m k.

(** Dereferencing a pointer that may be nil. *)
Definition deref {S A : Type} (p : option A) : Go S A :=
  match p with
  | Some v => ret v
  | None => panic "runtime error: invalid memory address or nil pointer dereference"
  end.

Section Rmsync.
Context {World : Type} `{!Platform World}.

(** *** Library calls *)

(** [filepath.Walk root fn], with the variables the closure [fn] captures
    threaded as an accumulator: the walk ends at the first error [fn]
    returns. *)
Fixpoint Walk_loop {A : Type}
    (fn : A → string → error + FileInfo → A * option error)
    (visits : list Visit) (acc : A) : A * option error :=
  match visits with
  | [] => (acc, None)
  | v :: visits' =>
      match fn acc (visit_path v) (visit_info v) with
      | (acc', Some err) => (acc', Some err)
      | (acc', None) => Walk_loop fn visits' acc'
      end
  end.

Definition filepath_Walk {A : Type} (w : World) (root : string)
    (fn : A → string → error + FileInfo → A * option error) (acc : A)
  : A * option error :=
  Walk_loop fn (walk_visits w root) acc.

Definition ioutil_ReadFile (w : World) (filename : string) : result bytes :=
  match read_file w filename with
  | inl errno => Err (PathError "open" filename errno)
  | inr content => Ok content
  end.

Definition json_Unmarshal (data : bytes) : result Metadata :=
  match json_decode data with
  | inl msg => Err (JSONError msg)
  | inr metadata => Ok metadata
  end.

(** [os.Stat], keeping only the error. *)
Definition os_Stat (w : World) (name : string) : option error :=
  match stat w name with
  | Some errno => Some (PathError "stat" name errno)
  | None => None
  end.

(** *** The metadata scan *)

Definition getMetadataFilenames (w : World) : result (list string) :=
  let '(filenames, err) :=
    filepath_Walk w BaseDir
      (fun (filenames : list string) path info =>
         match info with
         | inl err => (filenames, Some err)
         | inr info =>
             if IsDir info || negb (String.eqb (Ext path) ".metadata")
             then (filenames, None)
             else (filenames ++ [path], None)
         end) [] in
  match err with
  | Some err => Err err
  | None => Ok filenames
  end.

(** The [for ... range filenames] loop of [GetDirectoriesMetadataFiles]. *)
Fixpoint GetDirectoriesMetadataFiles_range (w : World)
    (filenames : list string) (directories : list RemarkableFile)
  : result (list RemarkableFile) :=
  match filenames with
  | [] => Ok directories
  | filename :: filenames' =>
      match ioutil_ReadFile w filename with
      | Err err => Err err
      | Ok filecontent =>
          match json_Unmarshal filecontent with
          | Err err => Err err
          | Ok metadata =>
              if String.eqb (Metadata_Type metadata) "CollectionType"
              then GetDirectoriesMetadataFiles_range w filenames'
                     (directories ++
                        [{| Filename := filename;
                            VisibleName := Metadata_VisibleName metadata |}])
              else GetDirectoriesMetadataFiles_range w filenames' directories
          end
      end
  end.

Definition GetDirectoriesMetadataFiles (w : World) : result (list RemarkableFile) :=
  match getMetadataFilenames w with
  | Err err => Err err
  | Ok filenames => GetDirectoriesMetadataFiles_range w filenames []
  end.

Definition pdfFilename_of (filename : string) : string :=
  TrimSuffix filename (Ext filename) +:+ ".pdf".

(** The [for ... range filenames] loop of [GetPdfFiles]. *)
Fixpoint GetPdfFiles_range (w : World)
    (filenames : list string) (pdfFiles : list RemarkableFile)
  : result (list RemarkableFile) :=
  match filenames with
  | [] => Ok pdfFiles
  | filename :: filenames' =>
      match ioutil_ReadFile w filename with
      | Err err => Err err
      | Ok filecontent =>
          match json_Unmarshal filecontent with
          | Err err => Err err
          | Ok metadata =>
              if String.eqb (Metadata_Type metadata) "DocumentType"
              then
                let pdfFilename := pdfFilename_of filename in
                if negb (os_IsNotExist (os_Stat w pdfFilename))
                then GetPdfFiles_range w filenames'
                       (pdfFiles ++
                          [{| Filename := pdfFilename;
                              VisibleName := Metadata_VisibleName metadata |}])
                else GetPdfFiles_range w filenames' pdfFiles
              else GetPdfFiles_range w filenames' pdfFiles
          end
      end
  end.

Definition GetPdfFiles (w : World) : result (list RemarkableFile) :=
  match getMetadataFilenames w with
  | Err err => Err err
  | Ok filenames => GetPdfFiles_range w filenames []
  end.

(** [map[string]struct{}] is a [gmap string ()]. *)
Definition createRemarkableFileMap (files : list RemarkableFile) : gmap string () :=
  foldl (fun fileMap file => <[VisibleName file := ()]> fileMap) ∅ files.


(** *** The network *)

Abbreviation state := (State World).

(** [myClient.Get(url)].  The deferred [r.Body.Close()] of the caller has no
    effect the model can see. *)
Definition Client_Get (url : string) : Go state (result Response) :=
  fun s =>
    let '(reply, w') := http_get url (world s) in
    (Returned (match reply with
               | inl msg => Err (TransportError msg)
               | inr r => Ok r
               end),
     {| world := w'; calls := calls s ++ [CallGet url reply] |}).

(** [ioutil.ReadAll(r.Body)] *)
Definition ioutil_ReadAll (r : Response) : result bytes :=
  match ResponseBody r with
  | inl msg => Err (TransportError msg)
  | inr content => Ok content
  end.

(** [http.NewRequest]: a nil request with an error, or a request with a
    nil error. *)
Definition http_NewRequest (method url : string) (body : bytes)
  : option Request * option error :=
  match request_invalid method url with
  | Some msg => (None, Some (RequestError msg))
  | None => (Some {| Method := method; URL := url; Header := ∅; Body := body |}, None)
  end.

(** [req.Header.Set(key, value)] through the pointer [req]. *)
Definition Header_Set (req : option Request) (key value : string)
  : Go state (option Request) :=
  (r ← deref req;
   ret (Some {| Method := Method r;
                URL := URL r;
                Header := <[key := [value]]> (Header r);
                Body := Body r |})).

(** The round trip of [myClient.Do]. *)
Definition round_trip (r : Request) : Go state (option error) :=
  fun s =>
    let '(reply, w') := http_do r (world s) in
    (Returned (match reply with
               | Some msg => Some (TransportError msg)
               | None => None
               end),
     {| world := w'; calls := calls s ++ [CallDo r reply] |}).

(** [myClient.Do(req)], keeping only the error. *)
Definition Client_Do (req : option Request) : Go state (option error) :=
  r ← deref req;
  round_trip r.

(** [multipart.NewWriter(body)] on a new buffer: draws a boundary. *)
Definition multipart_NewWriter : Go state multipart.Writer :=
  fun s =>
    let '(boundary, w') := random_boundary (world s) in
    (Returned (multipart.NewWriter boundary), {| world := w'; calls := calls s |}).

(** *** Fetching and uploading *)

Definition downloadPdfFile (url : string) : Go state (result bytes) :=
  (r ← Client_Get url;
   match r with
   | Err err => ret (Err err)
   | Ok r =>
       match ioutil_ReadAll r with
       | Err err => ret (Err err)
       | Ok fileContents => ret (Ok fileContents)
       end
   end).

Definition upload_url : string := "http://10.11.99.1/upload".

Definition UploadPdfToTablet (fileContents : bytes) (filename : string)
  : Go state (option error) :=
  (writer ← multipart_NewWriter;
   let '((part, writer), err) := multipart.CreateFormFile writer "file" filename in
   match err with
   | Some err => ret (Some err)
   | None =>
       let '(writer, _) := multipart.Write writer part fileContents in
       let '(writer, err) := multipart.Close writer in
       match err with
       | Some err => ret (Some err)
       | None =>
           let '(req, err) := http_NewRequest "POST" upload_url (multipart.Buffer writer) in
           req ← Header_Set req "Content-Type" (multipart.FormDataContentType writer);
           req ← Header_Set req "Accept" "*/*";
           req ← Header_Set req "Connection" "keep-alive";
           match err with
           | Some err => ret (Some err)
           | None =>
               err ← Client_Do req;
               match err with
               | Some err => ret (Some err)
               | None => ret None
               end
           end
       end
   end).

(** *** Sync *)

(** The body of the loop of [Sync] for one [item]. *)
Definition Sync_item (pdfFileMap : gmap string ()) (item : FileToSync)
  : Go state (option error) :=
  match pdfFileMap !! FileToSync_Filename item with
  | Some _ => ret None
  | None =>
      (r ← downloadPdfFile (FileToSync_Url item);
       match r with
       | Err err => ret (Some err)
       | Ok fileContents =>
           err ← UploadPdfToTablet fileContents (FileToSync_Filename item);
           match err with
           | Some err => ret (Some err)
           | None => ret None
           end
       end)
  end.

(** [for _, item := range files]: a [Some] from the body is a [return err]
    out of [Sync]. *)
Fixpoint Sync_range (pdfFileMap : gmap string ()) (files : list FileToSync)
  : Go state (option error) :=
  match files with
  | [] => ret None
  | item :: files' =>
      (err ← Sync_item pdfFileMap item;
       match err with
       | Some err => ret (Some err)
       | None => Sync_range pdfFileMap files'
       end)
  end.

Definition Sync (files : list FileToSync) : Go state (option error) :=
  fun s =>
    match GetPdfFiles (world s) with
    | Err err => (Returned (Some err), s)
    | Ok pdfFiles => Sync_range (createRemarkableFileMap pdfFiles) files s
    end.

End Rmsync.

(** ** Vocabulary of the properties *)

Section Vocabulary.
Context {World : Type} `{!Platform World}.

(** The record of a metadata file: what reading and decoding it yields. *)
Definition read_record (w : World) (filename : string) : result Metadata :=
  match ioutil_ReadFile w filename with
  | Err err => Err err
  | Ok filecontent => json_Unmarshal filecontent
  end.

(** The entry a record contributes to the collections query, if any. *)
Definition collection_entry (file : string * Metadata) : option RemarkableFile :=
  if String.eqb (Metadata_Type file.2) "CollectionType"
  then Some {| Filename := file.1; VisibleName := Metadata_VisibleName file.2 |}
  else None.

(** The entry a record contributes to the documents query, if any. *)
Definition document_entry (w : World) (file : string * Metadata) : option RemarkableFile :=
  if String.eqb (Metadata_Type file.2) "DocumentType"
  then if os_IsNotExist (os_Stat w (pdfFilename_of file.1))
       then None
       else Some {| Filename := pdfFilename_of file.1;
                    VisibleName := Metadata_VisibleName file.2 |}
  else None.

(** The path a visit of the walk adds to the list of metadata files. *)
Definition metadata_path (v : Visit) : option string :=
  match visit_info v with
  | inl _ => None
  | inr info =>
      if IsDir info || negb (String.eqb (Ext (visit_path v)) ".metadata")
      then None
      else Some (visit_path v)
  end.

(** The display names of the documents on the device. *)
Definition names (pdfFiles : list RemarkableFile) : list string :=
  VisibleName <$> pdfFiles.

(** The body of an upload: the delimiter, the header of the one part, with
    the field name "file" and the filename as [escapeQuotes] writes it, an
    empty line, the bytes of the file, and the closing delimiter. *)
Definition upload_body (boundary filename : string) (fileContents : bytes) : bytes :=
  bytes_of ("--" +:+ boundary +:+ crlf)
  ++ bytes_of ("Content-Disposition: form-data; name=" +:+ dquote +:+ "file" +:+ dquote
               +:+ "; filename=" +:+ dquote
               +:+ multipart.escapeQuotes filename +:+ dquote +:+ crlf
               +:+ "Content-Type: application/octet-stream" +:+ crlf)
  ++ bytes_of crlf
  ++ fileContents
  ++ bytes_of (crlf +:+ "--" +:+ boundary +:+ "--" +:+ crlf).

(** The request of an upload. *)
Definition upload_request (boundary filename : string) (fileContents : bytes) : Request :=
  {| Method := "POST";
     URL := upload_url;
     Header := <["Connection" := ["keep-alive"]]>
                 (<["Accept" := ["*/*"]]>
                    (<["Content-Type" :=
                         ["multipart/form-data; boundary="
                          +:+ multipart.quoted_boundary boundary]]> ∅));
     Body := upload_body boundary filename fileContents |}.

(** The characters [escapeQuotes] leaves alone. *)
Definition plain (c : ascii) : bool :=
  negb (Ascii.eqb c "\" || Ascii.eqb c "034" || Ascii.eqb c "013" || Ascii.eqb c "010").

(** [trace] is a completed transfer of [item]: one GET of its URL that
    yields a body, then one POST to the device of a form whose only part
    carries that body under the item's name. *)
Definition transfer (item : FileToSync) (trace : list Call) : Prop :=
  ∃ response fileContents boundary,
    ResponseBody response = inr fileContents ∧
    trace = [CallGet (FileToSync_Url item) (inr response);
             CallDo (upload_request boundary (FileToSync_Filename item) fileContents) None].

(** A request is missing when no document on the device has its name. *)
Definition missing (pdfFiles : list RemarkableFile) (item : FileToSync) : Prop :=
  FileToSync_Filename item ∉ names pdfFiles.

#[export] Instance missing_dec pdfFiles item : Decision (missing pdfFiles item).
Proof. unfold missing. apply _. Defined.

(** The error a visit of the walk comes with, if any, and the first such
    error of a walk. *)
Definition visit_error (v : Visit) : option error :=
  match visit_info v with
  | inl err => Some err
  | inr _ => None
  end.

Definition walk_error (visits : list Visit) : option error :=
  head (omap visit_error visits).

(** What one network call has to do with [item]: it is a GET of the item's
    URL, or a POST of a one-part form under the item's name. *)
Definition call_for (item : FileToSync) (c : Call) : Prop :=
  match c with
  | CallGet url _ => url = FileToSync_Url item
  | CallDo req _ =>
      ∃ boundary fileContents,
        req = upload_request boundary (FileToSync_Filename item) fileContents
  end.

(** [trace] is a transfer of [item] that ended with the error [err]: the GET
    failed, or the body of the response could not be read, or the POST
    failed. *)
Definition failed_transfer (item : FileToSync) (err : error) (trace : list Call) : Prop :=
  (∃ msg,
     err = TransportError msg ∧
     trace = [CallGet (FileToSync_Url item) (inl msg)]) ∨
  (∃ response msg,
     ResponseBody response = inl msg ∧
     err = TransportError msg ∧
     trace = [CallGet (FileToSync_Url item) (inr response)]) ∨
  (∃ response fileContents boundary msg,
     ResponseBody response = inr fileContents ∧
     err = TransportError msg ∧
     trace = [CallGet (FileToSync_Url item) (inr response);
              CallDo (upload_request boundary (FileToSync_Filename item) fileContents)
                (Some msg)]).

(** [trace] is a transfer of [item] cut by a panic of the uploader: the GET
    yielded a body and no POST followed. *)
Definition cut_transfer (item : FileToSync) (trace : list Call) : Prop :=
  ∃ response fileContents,
    ResponseBody response = inr fileContents ∧
    trace = [CallGet (FileToSync_Url item) (inr response)].

End Vocabulary.

(** ** A concrete tablet

    A small platform on which the package can be run: the file system is a
    list of walk entries and two tables, the web is a table of replies, and
    the device's upload service stores what it is sent as a new document.
    Metadata files are written in a one-letter format instead of JSON: a tag
    ([C] collection, [D] document, [T] anything else) followed by the visible
    name. *)
Module Tablet.

Record World := {
  tree : list Visit;                            (* the walk of [BaseDir] *)
  files : list (string * (Errno + bytes));     (* what reading a path yields *)
  broken : list (string * Errno);               (* paths at which stat fails *)
  web : list (string * (string + Response));   (* replies by URL *)
  rejected : list string;                       (* filenames whose upload is cut *)
}.

Fixpoint assoc {A : Type} (key : string) (table : list (string * A)) : option A :=
  match table with
  | [] => None
  | (k, v) :: table' => if String.eqb k key then Some v else assoc key table'
  end.

Definition read (w : World) (path : string) : Errno + bytes :=
  match assoc path (files w) with
  | Some r => r
  | None => inl ENOENT
  end.

Definition lstat (w : World) (path : string) : option Errno :=
  match assoc path (broken w) with
  | Some errno => Some errno
  | None =>
      match assoc path (files w) with
      | Some _ => None
      | None => Some ENOENT
      end
  end.

Definition record (type name : string) : Metadata :=
  {| Deleted := false; DastModified := "0"; Metadatamodified := false;
     Modified := false; Parent := ""; Pinned := false; Synced := true;
     Metadata_Type := type; Version := 1; Metadata_VisibleName := name |}.

Definition decode (data : bytes) : string + Metadata :=
  match data with
  | [] => inl "unexpected end of JSON input"
  | tag :: name =>
      let name := string_of_list_byte name in
      if Byte.eqb tag Byte.x43 then inr (record "CollectionType" name)
      else if Byte.eqb tag Byte.x44 then inr (record "DocumentType" name)
      else if Byte.eqb tag Byte.x54 then inr (record "TemplateType" name)
      else inl "invalid character looking for beginning of value"
  end.

Definition get (url : string) (w : World) : (string + Response) * World :=
  match assoc url (web w) with
  | Some reply => (reply, w)
  | None => (inl "dial tcp: no such host", w)
  end.

Definition file (path : string) : Visit :=
  {| visit_path := path; visit_info := inr {| IsDir := false |} |}.

Definition dir (path : string) : Visit :=
  {| visit_path := path; visit_info := inr {| IsDir := true |} |}.

(** How the device reads a body: [strip_prefix p l] is what follows [p] at
    the head of [l], and [split_at marker l] cuts [l] around the first
    occurrence of [marker]. *)
Fixpoint strip_prefix (p l : bytes) : option bytes :=
  match p, l with
  | [], _ => Some l
  | b :: p', c :: l' => if Byte.eqb b c then strip_prefix p' l' else None
  | _ :: _, [] => None
  end.

Fixpoint split_at (marker l : bytes) : option (bytes * bytes) :=
  match strip_prefix marker l with
  | Some rest => Some ([], rest)
  | None =>
      match l with
      | [] => None
      | b :: l' =>
          match split_at marker l' with
          | Some (before, rest) => Some (b :: before, rest)
          | None => None
          end
      end
  end.

(** The filename parameter, as it stands in the header, and the payload of
    the first part of a body. *)
Definition received (body : bytes) : option (string * bytes) :=
  match split_at (bytes_of crlf) body with
  | None => None
  | Some (delimiter, _) =>
      match split_at (bytes_of ("filename=" +:+ dquote)) body with
      | None => None
      | Some (_, rest) =>
          match split_at (bytes_of (dquote +:+ crlf)) rest with
          | None => None
          | Some (name, rest) =>
              match split_at (bytes_of (crlf +:+ crlf)) rest with
              | None => None
              | Some (_, rest) =>
                  match split_at (bytes_of crlf ++ delimiter) rest with
                  | None => None
                  | Some (data, _) => Some (string_of_list_byte name, data)
                  end
              end
          end
      end
  end.

(** The device stores what it is sent as a document named after the
    filename of the part. *)
Definition store (w : World) (name : string) (data : bytes) : World :=
  {| tree := tree w ++ [file (BaseDir +:+ name +:+ ".metadata")];
     files := files w ++
              [(BaseDir +:+ name +:+ ".metadata",
                inr (Byte.x44 :: list_byte_of_string name));
               (BaseDir +:+ name +:+ ".pdf", inr data)];
     broken := broken w;
     web := web w;
     rejected := rejected w |}.

Definition post (req : Request) (w : World) : option string * World :=
  match received (Body req) with
  | None => (None, w)
  | Some (name, data) =>
      if existsb (String.eqb name) (rejected w)
      then (Some "read tcp: connection reset by peer", w)
      else (None, store w name data)
  end.

(** The platform of the tablet; [check] is the validation [http.NewRequest]
    applies. *)
Definition platform (check : string → string → option string) : Platform World :=
  {| walk_visits := fun w _ => tree w;
     read_file := read;
     stat := lstat;
     json_decode := decode;
     random_boundary := fun w => ("b0undary", w);
     request_invalid := check;
     http_get := get;
     http_do := post |}.

Definition accepting : Platform World := platform (fun _ _ => None).

Definition meta (name : string) : string := BaseDir +:+ name +:+ ".metadata".
Definition pdf (name : string) : string := BaseDir +:+ name +:+ ".pdf".

Definition page (s : string) : string + Response :=
  inr {| StatusCode := 200; ResponseBody := inr (list_byte_of_string s) |}.

(** The scenario of the specification: a collection "Notes", a document
    "Report" with its content file, and a document "Orphan" whose content
    file is missing; and a record of a type the package does not know. *)
Definition shelf : World :=
  {| tree := [dir BaseDir; file (meta "n1"); file (meta "r1"); file (pdf "r1");
              file (meta "o1"); file (BaseDir +:+ "r1.pagedata"); file (meta "t1")];
     files := [(meta "n1", inr (list_byte_of_string "CNotes"));
               (meta "r1", inr (list_byte_of_string "DReport"));
               (pdf "r1", inr (list_byte_of_string "%PDF-1.4 report"));
               (meta "o1", inr (list_byte_of_string "DOrphan"));
               (BaseDir +:+ "r1.pagedata", inr []);
               (meta "t1", inr (list_byte_of_string "TTemplates"))];
     broken := [];
     web := [("http://x/report", page "%PDF-1.4 report");
             ("http://y/newdoc", page "%PDF-1.4 new");
             ("http://z/paper", page "%PDF-1.4 paper")];
     rejected := [] |}.

(** The shelf, with a link that points to itself where the content file
    of "Orphan" would be: stat fails there, but not with a not-exist
    error. *)
Definition looped : World :=
  {| tree := tree shelf ++ [file (pdf "o1")]; files := files shelf;
     broken := [(pdf "o1", ELOOP)];
     web := web shelf; rejected := rejected shelf |}.

(** The shelf, on a day the device cuts the upload of "Paper". *)
Definition picky : World :=
  {| tree := tree shelf; files := files shelf; broken := broken shelf;
     web := web shelf; rejected := ["Paper"] |}.

(** The shelf, with the metadata file of "Report" cut short. *)
Definition torn : World :=
  {| tree := tree shelf;
     files := (meta "r1", inr (list_byte_of_string "{")) :: files shelf;
     broken := broken shelf; web := web shelf; rejected := rejected shelf |}.

Definition start (w : World) : State World := {| world := w; calls := [] |}.

Definition request (name url : string) : FileToSync :=
  {| FileToSync_Filename := name; FileToSync_Url := url |}.

Definition document (name visible : string) : RemarkableFile :=
  {| Filename := pdf name; VisibleName := visible |}.

(** The documents of the shelf, and some request lists. *)
Definition on_shelf : list RemarkableFile := [document "r1" "Report"].

Definition wanted : list FileToSync :=
  [request "Report" "http://x/report"; request "NewDoc" "http://y/newdoc"].

Definition ghost : FileToSync := request "Ghost" "http://nowhere/ghost".

Definition paper : FileToSync := request "Paper" "http://z/paper".

Definition newdoc : FileToSync := request "NewDoc" "http://y/newdoc".

(** A filename of two lines: "a", a line feed, "b.pdf". *)
Definition two_lines : string := "a" +:+ String "010" "b.pdf".

(** A second request under the name of [newdoc]. *)
Definition newdoc' : FileToSync := request "NewDoc" "http://z/paper".

Definition scanned : list string := [meta "n1"; meta "r1"; meta "o1"; meta "t1"].

(** The documents of the shelf once "NewDoc" has been uploaded to it. *)
Definition on_shelf' : list RemarkableFile :=
  [document "r1" "Report"; document "NewDoc" "NewDoc"].

(** The shelf, with a directory the walk cannot open. *)
Definition locked : World :=
  {| tree := [dir BaseDir; file (meta "n1");
              {| visit_path := BaseDir +:+ "trash";
                 visit_info := inl (PathError "open" (BaseDir +:+ "trash") EACCES) |};
              file (meta "r1")];
     files := files shelf; broken := broken shelf;
     web := web shelf; rejected := rejected shelf |}.

(** The shelf, with a metadata file of "Report" that cannot be read. *)
Definition unreadable : World :=
  {| tree := tree shelf;
     files := (meta "r1", inl EACCES) :: files shelf;
     broken := broken shelf; web := web shelf; rejected := rejected shelf |}.

(** The shelf, on a web where the new document has gone: the server answers
    404 with a page of its own. *)
Definition gone : Response :=
  {| StatusCode := 404; ResponseBody := inr (list_byte_of_string "404 page not found") |}.

Definition moved : World :=
  {| tree := tree shelf; files := files shelf; broken := broken shelf;
     web := [("http://y/newdoc", inr gone)];
     rejected := rejected shelf |}.

End Tablet.

(** * Properties *)

(** ** Paths *)

Section Paths.

Lemma str_chars s : str (chars s) = s.
Proof. apply string_of_list_ascii_of_string. Qed.

Lemma chars_str l : chars (str l) = l.
Proof. apply list_ascii_of_string_of_list_ascii. Qed.

Lemma length_chars s : length (chars s) = String.length s.
Proof. induction s as [|c s IH]; simpl; [done|by rewrite IH]. Qed.

Lemma str_app l k : str (l ++ k) = str l +:+ str k.
Proof. induction l as [|c l IH]; simpl; [done|by rewrite IH]. Qed.

(** The loop of [Ext] returns a suffix of the path it scans. *)
Lemma Ext_loop_suffix before after :
  ∃ base, rev before ++ after = base ++ Ext_loop before after.
Proof.
  revert after. induction before as [|c before IH]; intros after; simpl.
  - exists after. by rewrite app_nil_r.
  - destruct (IsPathSeparator c).
    + eexists. by rewrite app_nil_r.
    + destruct (Ascii.eqb c ".").
      * exists (rev before). by rewrite <-app_assoc.
      * destruct (IH (c :: after)) as [base Hbase].
        exists base. by rewrite <-app_assoc.
Qed.

Lemma Ext_suffix path : ∃ base, path = base +:+ Ext path.
Proof.
  destruct (Ext_loop_suffix (rev (chars path)) []) as [base Hbase].
  rewrite rev_involutive, app_nil_r in Hbase.
  exists (str base). unfold Ext.
  by rewrite <-str_app, <-Hbase, str_chars.
Qed.

Lemma TrimSuffix_app base suffix : TrimSuffix (base +:+ suffix) suffix = base.
Proof.
  unfold TrimSuffix, HasSuffix.
  rewrite <-(str_chars base), <-(str_chars suffix), <-str_app.
  rewrite <-!length_chars, !chars_str, length_app.
  replace (length (chars base) + length (chars suffix) - length (chars suffix))
    with (length (chars base)) by lia.
  rewrite drop_app_length, take_app_length, String.eqb_refl.
  by destruct (Nat.leb_spec (length (chars suffix))
                 (length (chars base) + length (chars suffix))); [|lia].
Qed.

(** The path of the content file is the path of the metadata file with
    its extension replaced by ".pdf". *)
Lemma pdfFilename_of_replaces_extension filename :
  ∃ base, filename = base +:+ Ext filename ∧ pdfFilename_of filename = base +:+ ".pdf".
Proof.
  destruct (Ext_suffix filename) as [base Hbase].
  exists base. split; [done|].
  unfold pdfFilename_of. by rewrite Hbase at 1; rewrite TrimSuffix_app.
Qed.

End Paths.

(** ** The scan *)

Section Scan.
Context {World : Type} `{!Platform World}.

(** The walk collects, in order, the paths of the files (not directories)
    whose extension is ".metadata", and fails if any visit comes with an
    error. *)
Lemma Walk_loop_filenames (visits : list Visit) (filenames out : list string) :
  Walk_loop
    (fun (filenames : list string) path info =>
       match info with
       | inl err => (filenames, Some err)
       | inr info =>
           if IsDir info || negb (String.eqb (Ext path) ".metadata")
           then (filenames, None)
           else (filenames ++ [path], None)
       end) visits filenames = (out, None) →
  out = filenames ++ omap metadata_path visits.
Proof.
  revert filenames. induction visits as [|[path [err|info]] visits IH];
    intros filenames; simpl.
  - intros [= <-]. by rewrite app_nil_r.
  - done.
  - unfold metadata_path at 1. simpl.
    destruct (IsDir info || negb (String.eqb (Ext path) ".metadata")).
    + apply IH.
    + intros ->%IH. by rewrite <-app_assoc.
Qed.

Lemma getMetadataFilenames_Ok (w : World) filenames :
  getMetadataFilenames w = Ok filenames →
  filenames = omap metadata_path (walk_visits w BaseDir).
Proof.
  unfold getMetadataFilenames, filepath_Walk.
  destruct (Walk_loop _ _ _) as [out [err|]] eqn:Hwalk; [done|].
  intros [= <-]. by apply Walk_loop_filenames in Hwalk.
Qed.

Lemma omap_zip_cons {A : Type} (entry : string * Metadata → option A)
    filename metadata filenames records :
  omap entry (zip (filename :: filenames) (metadata :: records)) =
  match entry (filename, metadata) with
  | Some e => e :: omap entry (zip filenames records)
  | None => omap entry (zip filenames records)
  end.
Proof. reflexivity. Qed.

Lemma collection_entry_pair filename metadata :
  collection_entry (filename, metadata) =
  if String.eqb (Metadata_Type metadata) "CollectionType"
  then Some {| Filename := filename; VisibleName := Metadata_VisibleName metadata |}
  else None.
Proof. reflexivity. Qed.

Lemma document_entry_pair (w : World) filename metadata :
  document_entry w (filename, metadata) =
  if String.eqb (Metadata_Type metadata) "DocumentType"
  then if os_IsNotExist (os_Stat w (pdfFilename_of filename))
       then None
       else Some {| Filename := pdfFilename_of filename;
                    VisibleName := Metadata_VisibleName metadata |}
  else None.
Proof. reflexivity. Qed.

Lemma GetDirectoriesMetadataFiles_range_Ok (w : World) filenames directories out :
  GetDirectoriesMetadataFiles_range w filenames directories = Ok out →
  ∃ records,
    Forall2 (fun filename metadata => read_record w filename = Ok metadata)
      filenames records ∧
    out = directories ++ omap collection_entry (zip filenames records).
Proof.
  revert directories out.
  induction filenames as [|filename filenames IH]; intros directories out Hrange.
  - exists []. split; [constructor|]. simpl in *. rewrite app_nil_r. congruence.
  - simpl in Hrange. unfold read_record.
    destruct (ioutil_ReadFile w filename) as [filecontent|] eqn:Hread; [|done].
    destruct (json_Unmarshal filecontent) as [metadata|] eqn:Hjson; [|done].
    destruct (String.eqb (Metadata_Type metadata) "CollectionType") eqn:Htype;
      apply IH in Hrange as (records & Hrecords & ->);
      exists (metadata :: records);
      (split; [constructor; [by rewrite Hread|done]|]);
      rewrite omap_zip_cons, collection_entry_pair, Htype;
      by rewrite <-?app_assoc.
Qed.

Lemma GetPdfFiles_range_Ok (w : World) filenames pdfFiles out :
  GetPdfFiles_range w filenames pdfFiles = Ok out →
  ∃ records,
    Forall2 (fun filename metadata => read_record w filename = Ok metadata)
      filenames records ∧
    out = pdfFiles ++ omap (document_entry w) (zip filenames records).
Proof.
  revert pdfFiles out.
  induction filenames as [|filename filenames IH]; intros pdfFiles out Hrange.
  - exists []. split; [constructor|]. simpl in *. rewrite app_nil_r. congruence.
  - simpl in Hrange. unfold read_record.
    destruct (ioutil_ReadFile w filename) as [filecontent|] eqn:Hread; [|done].
    destruct (json_Unmarshal filecontent) as [metadata|] eqn:Hjson; [|done].
    destruct (String.eqb (Metadata_Type metadata) "DocumentType") eqn:Htype;
      [destruct (os_IsNotExist (os_Stat w (pdfFilename_of filename))) eqn:Hstat|];
      simpl in Hrange;
      apply IH in Hrange as (records & Hrecords & ->);
      exists (metadata :: records);
      (split; [constructor; [by rewrite Hread|done]|]);
      rewrite omap_zip_cons, document_entry_pair, Htype, ?Hstat;
      by rewrite <-?app_assoc.
Qed.

Lemma Forall2_zip_elem {A B : Type} (P : A → B → Prop) l k x y :
  Forall2 P l k → (x, y) ∈ zip l k → P x y.
Proof.
  induction 1 as [|x' y' l k HP _ IH]; simpl; intros Hin.
  - by apply elem_of_nil in Hin.
  - apply elem_of_cons in Hin as [[= -> ->]|Hin]; auto.
Qed.

Lemma Forall2_elem_zip {A B : Type} (P : A → B → Prop) l k x :
  Forall2 P l k → x ∈ l → ∃ y, (x, y) ∈ zip l k ∧ P x y.
Proof.
  induction 1 as [|x' y' l k HP _ IH]; simpl; intros Hin.
  - by apply elem_of_nil in Hin.
  - apply elem_of_cons in Hin as [->|Hin].
    + exists y'. split; [left|done].
    + destruct (IH Hin) as (y & Hy & HPy). exists y. split; [by right|done].
Qed.

Lemma json_Unmarshal_Err data err :
  json_Unmarshal data = Err err → is_parse_error err = true.
Proof.
  unfold json_Unmarshal. destruct (json_decode data); [|done].
  by intros [= <-].
Qed.

(** Both loops stop at the first file that cannot be read or decoded, so
    they stop with the same error. *)
Lemma range_parse_error (w : World) before filename after filecontent err0 :
  Forall (fun f => ∃ content, ioutil_ReadFile w f = Ok content) before →
  ioutil_ReadFile w filename = Ok filecontent →
  json_Unmarshal filecontent = Err err0 →
  ∃ err,
    is_parse_error err = true ∧
    (∀ directories,
       GetDirectoriesMetadataFiles_range w (before ++ filename :: after) directories
       = Err err) ∧
    (∀ pdfFiles,
       GetPdfFiles_range w (before ++ filename :: after) pdfFiles = Err err).
Proof.
  intros Hbefore Hread Hjson.
  induction Hbefore as [|f before [content Hf] _ IH].
  - exists err0. split; [by eapply json_Unmarshal_Err|].
    split; intros acc; simpl; by rewrite Hread, Hjson.
  - destruct (json_Unmarshal content) as [metadata|err1] eqn:Hcontent.
    + destruct IH as (err & Hparse & Hdirs & Hpdfs).
      exists err. split; [done|].
      split; intros acc; simpl; rewrite Hf, Hcontent.
      * destruct (String.eqb _ _); apply Hdirs.
      * destruct (String.eqb _ _); [destruct (negb _)|]; apply Hpdfs.
    + exists err1. split; [by eapply json_Unmarshal_Err|].
      split; intros acc; simpl; by rewrite Hf, Hcontent.
Qed.

(** Whatever else is on the device, a walked metadata file that cannot be
    decoded leaves neither query with a list. *)
Lemma malformed_metadata_never_lists (w : World) filenames filename filecontent err0 :
  getMetadataFilenames w = Ok filenames →
  filename ∈ filenames →
  ioutil_ReadFile w filename = Ok filecontent →
  json_Unmarshal filecontent = Err err0 →
  (∃ err, GetDirectoriesMetadataFiles w = Err err) ∧
  (∃ err, GetPdfFiles w = Err err).
Proof.
  intros Hwalk Hin Hread Hjson.
  assert (read_record w filename = Err err0) as Hrecord
    by (unfold read_record; by rewrite Hread).
  unfold GetDirectoriesMetadataFiles, GetPdfFiles. rewrite Hwalk. split.
  - destruct (GetDirectoriesMetadataFiles_range w filenames []) as [out|err] eqn:Hrange;
      [|by eexists].
    apply GetDirectoriesMetadataFiles_range_Ok in Hrange as (records & Hrecords & _).
    destruct (Forall2_elem_zip _ _ _ _ Hrecords Hin) as (metadata & _ & Hok).
    congruence.
  - destruct (GetPdfFiles_range w filenames []) as [out|err] eqn:Hrange; [|by eexists].
    apply GetPdfFiles_range_Ok in Hrange as (records & Hrecords & _).
    destruct (Forall2_elem_zip _ _ _ _ Hrecords Hin) as (metadata & _ & Hok).
    congruence.
Qed.

(** The documents query lists the record of a document exactly when the
    error of [os.Stat] on the sibling path is not a not-exist error: a nil
    error, or any other error. *)
Lemma GetPdfFiles_lists_unless_IsNotExist (w : World) filenames pdfFiles :
  getMetadataFilenames w = Ok filenames →
  GetPdfFiles w = Ok pdfFiles →
  (∃ records,
     Forall2 (fun filename metadata => read_record w filename = Ok metadata)
       filenames records ∧
     pdfFiles = omap (document_entry w) (zip filenames records)) ∧
  (∀ filename metadata,
     filename ∈ filenames →
     read_record w filename = Ok metadata →
     Metadata_Type metadata = "DocumentType" →
     ({| Filename := pdfFilename_of filename;
         VisibleName := Metadata_VisibleName metadata |} ∈ pdfFiles
      ↔ os_IsNotExist (os_Stat w (pdfFilename_of filename)) = false)).
Proof.
  intros Hwalk Hquery. unfold GetPdfFiles in Hquery. rewrite Hwalk in Hquery.
  apply GetPdfFiles_range_Ok in Hquery as (records & Hrecords & ->).
  split; [by exists records|].
  intros filename metadata Hin Hrecord Htype. simpl.
  rewrite list_elem_of_omap. split.
  - intros ([filename' metadata'] & _ & Hentry).
    rewrite document_entry_pair in Hentry.
    destruct (String.eqb (Metadata_Type metadata') "DocumentType"); [|done].
    destruct (os_IsNotExist (os_Stat w (pdfFilename_of filename'))) eqn:Hstat; [done|].
    injection Hentry as Hpath _. by rewrite <-Hpath.
  - intros Hstat.
    destruct (Forall2_elem_zip _ _ _ _ Hrecords Hin) as (metadata' & Hzip & Hrecord').
    rewrite Hrecord in Hrecord'. injection Hrecord' as <-.
    exists (filename, metadata). split; [done|].
    rewrite document_entry_pair, Hstat.
    by apply String.eqb_eq in Htype as ->.
Qed.

End Scan.

Section Transfer.
Context {World : Type} `{!Platform World}.

Implicit Types (s : State World) (item : FileToSync) (pdfFiles : list RemarkableFile).

Lemma createRemarkableFileMap_lookup pdfFiles name :
  createRemarkableFileMap pdfFiles !! name = None ↔ name ∉ names pdfFiles.
Proof.
  unfold createRemarkableFileMap, names.
  assert (∀ fileMap : gmap string (),
            foldl (fun fileMap file => <[VisibleName file := ()]> fileMap) fileMap pdfFiles
              !! name = None
            ↔ fileMap !! name = None ∧ name ∉ VisibleName <$> pdfFiles) as Hfold.
  { induction pdfFiles as [|file pdfFiles IH]; intros fileMap; simpl.
    - split; [intros ?; split; [done|apply not_elem_of_nil]|by intros [? _]].
    - rewrite IH, not_elem_of_cons, lookup_insert_None. intuition congruence. }
  rewrite Hfold, lookup_empty. tauto.
Qed.

Lemma downloadPdfFile_eq url s :
  downloadPdfFile url s =
  let '(reply, w') := http_get url (world s) in
  (Returned (match reply with
             | inl msg => Err (TransportError msg)
             | inr r => ioutil_ReadAll r
             end),
   {| world := w'; calls := calls s ++ [CallGet url reply] |}).
Proof.
  unfold downloadPdfFile, mbind, Go_mbind, bind, Client_Get.
  destruct (http_get url (world s)) as [[msg|r] w']; [done|].
  by destruct (ioutil_ReadAll r).
Qed.

Lemma string_length_app (a b : string) :
  String.length (a +:+ b) = String.length a + String.length b.
Proof.
  induction a as [|x a IH]; [done|].
  change (S (String.length (a +:+ b)) = S (String.length a + String.length b)).
  by rewrite IH.
Qed.

Lemma escape_char_plain c :
  if plain c
  then multipart.escape_char c = String c EmptyString
  else 2 ≤ String.length (multipart.escape_char c).
Proof.
  unfold plain, multipart.escape_char.
  destruct (Ascii.eqb c "\"); [simpl; lia|].
  destruct (Ascii.eqb c "034"); [simpl; lia|].
  destruct (Ascii.eqb c "013"); [simpl; lia|].
  destruct (Ascii.eqb c "010"); [simpl; lia|done].
Qed.

Lemma escapeQuotes_length (name : string) :
  String.length name ≤ String.length (multipart.escapeQuotes name) ∧
  (forallb plain (list_ascii_of_string name) = false →
   String.length name < String.length (multipart.escapeQuotes name)).
Proof.
  induction name as [|c name [IHle IHlt]]; [done|].
  cbn [multipart.escapeQuotes list_ascii_of_string forallb].
  rewrite string_length_app. cbn [String.length].
  pose proof (escape_char_plain c) as Hc. destruct (plain c).
  - rewrite Hc. cbn [String.length andb]. split; [lia|]. intros ?%IHlt. lia.
  - split; intros; lia.
Qed.

(** [escapeQuotes] leaves a string as it is exactly when the string has no
    backslash, double quote, carriage return or line feed. *)
Lemma escapeQuotes_plain (name : string) :
  multipart.escapeQuotes name = name ↔ forallb plain (list_ascii_of_string name) = true.
Proof.
  split.
  - intros Heq. destruct (forallb plain (list_ascii_of_string name)) eqn:Hplain; [done|].
    apply escapeQuotes_length in Hplain. rewrite Heq in Hplain. lia.
  - induction name as [|c name IH]; [done|].
    cbn [multipart.escapeQuotes list_ascii_of_string forallb].
    intros [Hc Hs]%andb_prop. pose proof (escape_char_plain c) as Hescape.
    rewrite Hc in Hescape. by rewrite Hescape, (IH Hs).
Qed.

Lemma string_app_assoc (a b c : string) : (a +:+ b) +:+ c = a +:+ b +:+ c.
Proof.
  induction a as [|x a IH]; [done|].
  change (String x ((a +:+ b) +:+ c) = String x (a +:+ b +:+ c)). by rewrite IH.
Qed.

(** What the buffer holds when the three calls on the writer are done. *)
Lemma upload_buffer boundary filename fileContents :
  multipart.Buffer
    (multipart.Close
       (multipart.Write
          (multipart.CreateFormFile (multipart.NewWriter boundary) "file" filename).1.2
          (multipart.CreateFormFile (multipart.NewWriter boundary) "file" filename).1.1
          fileContents).1).1
  = upload_body boundary filename fileContents.
Proof.
  unfold upload_body, multipart.CreateFormFile, multipart.CreatePart, multipart.Write.
  cbn [multipart.NewWriter multipart.Lastpart multipart.Created multipart.Boundary
       multipart.Buffer fst snd].
  rewrite decide_True by done.
  cbn [multipart.Close multipart.Lastpart multipart.Created multipart.Boundary
       multipart.Buffer fst snd app multipart.header_lines].
  unfold multipart.FileContentDisposition.
  rewrite <-!app_assoc, !string_app_assoc. reflexivity.
Qed.

(** The three calls on a new writer: none fails, and the buffer ends up
    holding the body of the upload. *)
Lemma writer_run boundary filename fileContents part writer err :
  multipart.CreateFormFile (multipart.NewWriter boundary) "file" filename
  = ((part, writer), err) →
  err = None ∧
  ∃ writer' writer'',
    multipart.Write writer part fileContents = (writer', None) ∧
    multipart.Close writer' = (writer'', None) ∧
    multipart.Buffer writer'' = upload_body boundary filename fileContents ∧
    multipart.FormDataContentType writer''
    = "multipart/form-data; boundary=" +:+ multipart.quoted_boundary boundary.
Proof.
  intros Hcreate.
  pose proof (upload_buffer boundary filename fileContents) as Hbuffer.
  rewrite Hcreate in Hbuffer. cbn [fst snd] in Hbuffer.
  assert (err = None) as -> by exact (f_equal snd (eq_sym Hcreate)).
  assert (multipart.Lastpart writer = Some part) as Hlast
    by exact (eq_trans (f_equal (fun r => multipart.Lastpart r.1.2) (eq_sym Hcreate))
                (f_equal (fun r => Some r.1.1) Hcreate)).
  assert (multipart.Boundary writer = boundary) as Hboundary
    by exact (f_equal (fun r => multipart.Boundary r.1.2) (eq_sym Hcreate)).
  split; [done|].
  exists (multipart.Write writer part fileContents).1,
    (multipart.Close (multipart.Write writer part fileContents).1).1.
  split; [|split; [done|split; [done|]]].
  - unfold multipart.Write. by rewrite decide_True.
  - unfold multipart.FormDataContentType, multipart.Close, multipart.Write.
    rewrite decide_True by done.
    cbn [fst multipart.Boundary]. by rewrite Hboundary.
Qed.

Lemma UploadPdfToTablet_eq fileContents filename s :
  UploadPdfToTablet fileContents filename s =
  let '(boundary, w1) := random_boundary (world s) in
  match request_invalid "POST" upload_url with
  | Some _ =>
      (Panicked "runtime error: invalid memory address or nil pointer dereference",
       {| world := w1; calls := calls s |})
  | None =>
      let req := upload_request boundary filename fileContents in
      let '(reply, w2) := http_do req w1 in
      (Returned (match reply with
                 | Some msg => Some (TransportError msg)
                 | None => None
                 end),
       {| world := w2; calls := calls s ++ [CallDo req reply] |})
  end.
Proof.
  unfold UploadPdfToTablet, mbind, Go_mbind, bind, multipart_NewWriter.
  destruct (random_boundary (world s)) as [boundary w1]. cbv beta iota.
  destruct (multipart.CreateFormFile _ _ _) as [[part writer] err] eqn:Hcreate.
  destruct (writer_run _ _ fileContents _ _ _ Hcreate)
    as (-> & writer' & writer'' & -> & -> & Hbuffer & Htype).
  cbv beta iota. rewrite Hbuffer, Htype. unfold http_NewRequest.
  destruct (request_invalid "POST" upload_url) as [msg|]; [reflexivity|].
  unfold Header_Set, Client_Do, round_trip, deref, mbind, Go_mbind, bind, ret.
  cbv beta iota. cbn [Method URL Header Body world calls].
  fold (upload_request boundary filename fileContents).
  destruct (http_do _ w1) as [[msg|] w2]; reflexivity.
Qed.

Lemma ioutil_ReadAll_Ok response fileContents :
  ioutil_ReadAll response = Ok fileContents →
  ResponseBody response = inr fileContents.
Proof.
  unfold ioutil_ReadAll. destruct (ResponseBody response); [done|].
  by intros [= ->].
Qed.

Lemma Sync_item_present pdfFiles item s :
  ¬ missing pdfFiles item →
  Sync_item (createRemarkableFileMap pdfFiles) item s = (Returned None, s).
Proof.
  intros Hpresent. unfold Sync_item.
  destruct (createRemarkableFileMap pdfFiles !! FileToSync_Filename item)
    eqn:Hlookup; [done|].
  by apply createRemarkableFileMap_lookup in Hlookup.
Qed.

Lemma Sync_item_missing pdfFiles item s :
  missing pdfFiles item →
  Sync_item (createRemarkableFileMap pdfFiles) item s =
  match downloadPdfFile (FileToSync_Url item) s with
  | (Returned (Ok fileContents), s1) =>
      UploadPdfToTablet fileContents (FileToSync_Filename item) s1
  | (Returned (Err err), s1) => (Returned (Some err), s1)
  | (Panicked msg, s1) => (Panicked msg, s1)
  end.
Proof.
  intros Hmissing. apply createRemarkableFileMap_lookup in Hmissing.
  unfold Sync_item. rewrite Hmissing.
  unfold mbind, Go_mbind, bind.
  destruct (downloadPdfFile _ s) as [[[fileContents|err]|msg] s1]; [|done..].
  destruct (UploadPdfToTablet _ _ s1) as [[[err|]|msg] s2]; done.
Qed.

Lemma Sync_item_transfer pdfFiles item s s' :
  missing pdfFiles item →
  Sync_item (createRemarkableFileMap pdfFiles) item s = (Returned None, s') →
  ∃ trace, transfer item trace ∧ calls s' = calls s ++ trace.
Proof.
  intros Hmissing. rewrite Sync_item_missing, downloadPdfFile_eq by done.
  destruct (http_get _ (world s)) as [[msg|response] w1]; [done|].
  destruct (ioutil_ReadAll response) as [fileContents|] eqn:Hbody; [|done].
  rewrite UploadPdfToTablet_eq. simpl.
  destruct (random_boundary w1) as [boundary w2].
  destruct (request_invalid "POST" upload_url); [done|].
  destruct (http_do _ w2) as [[msg|] w3]; [done|].
  intros [= <-]. eexists. split.
  - exists response, fileContents, boundary.
    split; [by apply ioutil_ReadAll_Ok|reflexivity].
  - simpl. by rewrite <-app_assoc.
Qed.

Lemma Sync_range_cons inv item files s :
  Sync_range inv (item :: files) s =
  match Sync_item inv item s with
  | (Returned None, s1) => Sync_range inv files s1
  | (Returned (Some err), s1) => (Returned (Some err), s1)
  | (Panicked msg, s1) => (Panicked msg, s1)
  end.
Proof.
  simpl. unfold mbind, Go_mbind, bind.
  by destruct (Sync_item inv item s) as [[[err|]|msg] s1].
Qed.

Lemma Sync_range_app inv before files s s1 :
  Sync_range inv before s = (Returned None, s1) →
  Sync_range inv (before ++ files) s = Sync_range inv files s1.
Proof.
  revert s. induction before as [|item before IH]; intros s.
  - by intros [= ->].
  - simpl app. rewrite !Sync_range_cons.
    destruct (Sync_item inv item s) as [[[err|]|msg] s0]; [done| |done].
    apply IH.
Qed.

Lemma Sync_range_filter pdfFiles files s :
  Sync_range (createRemarkableFileMap pdfFiles) files s =
  Sync_range (createRemarkableFileMap pdfFiles) (filter (missing pdfFiles) files) s.
Proof.
  revert s. induction files as [|item files IH]; intros s; [done|].
  destruct (decide (missing pdfFiles item)) as [Hmissing|Hpresent].
  - rewrite filter_cons_True, !Sync_range_cons by done.
    destruct (Sync_item _ item s) as [[[err|]|msg] s1]; [done| |done].
    apply IH.
  - rewrite filter_cons_False, Sync_range_cons, Sync_item_present by done.
    apply IH.
Qed.

Lemma Sync_range_transfers pdfFiles files s s' :
  Sync_range (createRemarkableFileMap pdfFiles) files s = (Returned None, s') →
  ∃ traces,
    Forall2 transfer (filter (missing pdfFiles) files) traces ∧
    calls s' = calls s ++ concat traces.
Proof.
  revert s. induction files as [|item files IH]; intros s.
  - intros [= <-]. exists []. split; [constructor|]. simpl. by rewrite app_nil_r.
  - rewrite Sync_range_cons.
    destruct (Sync_item _ item s) as [[[err|]|msg] s1] eqn:Hitem; [done| |done].
    intros (traces & Htraces & Hcalls)%IH.
    destruct (decide (missing pdfFiles item)) as [Hmissing|Hpresent].
    + destruct (Sync_item_transfer _ _ _ _ Hmissing Hitem) as (trace & Htrace & Hs1).
      exists (trace :: traces). rewrite filter_cons_True by done.
      split; [by constructor|]. simpl. by rewrite Hcalls, Hs1, <-app_assoc.
    + rewrite Sync_item_present in Hitem by done.
      injection Hitem as <-. exists traces. by rewrite filter_cons_False.
Qed.

(** When [http.NewRequest] reports an error, the request is nil and the
    first [req.Header.Set] dereferences it: the error check that follows is
    never reached. *)
Lemma UploadPdfToTablet_NewRequest_error fileContents filename s msg :
  request_invalid "POST" upload_url = Some msg →
  ∃ s',
    UploadPdfToTablet fileContents filename s
    = (Panicked "runtime error: invalid memory address or nil pointer dereference", s') ∧
    calls s' = calls s.
Proof.
  intros Hinvalid. rewrite UploadPdfToTablet_eq, Hinvalid.
  destruct (random_boundary (world s)) as [boundary w1]. by eexists.
Qed.

(** When the request can be built, the upload returns, and what it returns
    is the error of the round trip, if any. *)
Lemma UploadPdfToTablet_returns fileContents filename s :
  request_invalid "POST" upload_url = None →
  ∃ boundary reply s',
    UploadPdfToTablet fileContents filename s
    = (Returned (TransportError <$> reply), s') ∧
    calls s' = calls s ++ [CallDo (upload_request boundary filename fileContents) reply].
Proof.
  intros Hvalid. rewrite UploadPdfToTablet_eq, Hvalid.
  destruct (random_boundary (world s)) as [boundary w1]. simpl.
  destruct (http_do _ w1) as [reply w2].
  exists boundary, reply,
    {| world := w2;
       calls := calls s ++ [CallDo (upload_request boundary filename fileContents) reply] |}.
  split; [by destruct reply|done].
Qed.

Lemma Sync_scanned files s pdfFiles :
  GetPdfFiles (world s) = Ok pdfFiles →
  Sync files s = Sync_range (createRemarkableFileMap pdfFiles) files s.
Proof. intros Hscan. unfold Sync. by rewrite Hscan. Qed.

End Transfer.

(** * The claims of the specification *)

Section Claims.
Context {World : Type} `{!Platform World}.

Implicit Types (s : State World) (item : FileToSync) (pdfFiles : list RemarkableFile).

(** C1.  When [Sync] runs to its end without an error, the network calls it
    made are, in the order of the request list, one completed transfer
    (a GET of the request's URL, then a POST of the fetched bytes under the
    request's name) for each request whose name is not a display name of a
    document on the device, and nothing else; the iteration for a request
    whose name is on the device returns at once and leaves the state, and
    so the list of calls, as it found it. *)
Theorem Sync_transfers_exactly_the_missing files s pdfFiles s' :
  GetPdfFiles (world s) = Ok pdfFiles →
  Sync files s = (Returned None, s') →
  (∃ traces,
     Forall2 transfer (filter (missing pdfFiles) files) traces ∧
     calls s' = calls s ++ concat traces) ∧
  (∀ item, item ∈ files → ¬ missing pdfFiles item →
     ∀ s1, Sync_item (createRemarkableFileMap pdfFiles) item s1 = (Returned None, s1)).
Proof.
  intros Hscan Hsync. rewrite (Sync_scanned _ _ _ Hscan) in Hsync.
  split.
  - by apply Sync_range_transfers.
  - intros item _ Hpresent s1. by apply Sync_item_present.
Qed.

(** C2.  If the requests before a missing request went through and the
    fetch of that request fails, or its fetch succeeds and its upload
    fails, then [Sync] returns that very error, in the state the failed
    call left: whatever requests come later, no call is made for them. *)
Theorem Sync_fails_fast before item after s pdfFiles s1 s2 err :
  GetPdfFiles (world s) = Ok pdfFiles →
  Sync before s = (Returned None, s1) →
  missing pdfFiles item →
  (downloadPdfFile (FileToSync_Url item) s1 = (Returned (Err err), s2) ∨
   ∃ fileContents s1',
     downloadPdfFile (FileToSync_Url item) s1 = (Returned (Ok fileContents), s1') ∧
     UploadPdfToTablet fileContents (FileToSync_Filename item) s1'
     = (Returned (Some err), s2)) →
  Sync (before ++ item :: after) s = (Returned (Some err), s2).
Proof.
  intros Hscan Hbefore Hmissing Hfail.
  rewrite (Sync_scanned _ _ _ Hscan) in Hbefore.
  rewrite (Sync_scanned _ _ _ Hscan).
  rewrite (Sync_range_app _ _ _ _ _ Hbefore), Sync_range_cons.
  rewrite Sync_item_missing by done.
  destruct Hfail as [->|(fileContents & s1' & -> & ->)]; done.
Qed.

(** C4.  When the collections query succeeds, its result is, in walk
    order, one entry per metadata file whose record has the type
    "CollectionType", made of the metadata file's path and the record's
    visible name; so the entry of a record is in the result if and only if
    the record's type is exactly "CollectionType". *)
Theorem GetDirectoriesMetadataFiles_selects_collections (w : World) filenames directories :
  getMetadataFilenames w = Ok filenames →
  GetDirectoriesMetadataFiles w = Ok directories →
  (∃ records,
     Forall2 (fun filename metadata => read_record w filename = Ok metadata)
       filenames records ∧
     directories = omap collection_entry (zip filenames records)) ∧
  (∀ filename metadata,
     filename ∈ filenames →
     read_record w filename = Ok metadata →
     ({| Filename := filename; VisibleName := Metadata_VisibleName metadata |}
        ∈ directories
      ↔ Metadata_Type metadata = "CollectionType")).
Proof.
  intros Hwalk Hquery. unfold GetDirectoriesMetadataFiles in Hquery.
  rewrite Hwalk in Hquery.
  apply GetDirectoriesMetadataFiles_range_Ok in Hquery as (records & Hrecords & ->).
  split; [by exists records|].
  intros filename metadata Hin Hrecord. simpl.
  rewrite list_elem_of_omap. split.
  - intros ([filename' metadata'] & Hzip & Hentry).
    rewrite collection_entry_pair in Hentry.
    destruct (String.eqb (Metadata_Type metadata') "CollectionType") eqn:Htype; [|done].
    injection Hentry as <- _.
    apply (Forall2_zip_elem _ _ _ _ _ Hrecords) in Hzip.
    rewrite Hrecord in Hzip. injection Hzip as <-.
    by apply String.eqb_eq.
  - intros Htype.
    destruct (Forall2_elem_zip _ _ _ _ Hrecords Hin) as (metadata' & Hzip & Hrecord').
    rewrite Hrecord in Hrecord'. injection Hrecord' as <-.
    exists (filename, metadata). split; [done|].
    rewrite collection_entry_pair.
    by apply String.eqb_eq in Htype as ->.
Qed.

(** C5.  In a scan whose walk succeeds, if a metadata file cannot be
    decoded and the files walked before it can be read, then the
    collections query and the documents query both return an error and no
    list, and the error is a decoding error: that of the first file, in
    walk order, that cannot be decoded. *)
Theorem malformed_metadata_fails_scan (w : World) before filename after filecontent err0 :
  getMetadataFilenames w = Ok (before ++ filename :: after) →
  Forall (fun f => ∃ content, ioutil_ReadFile w f = Ok content) before →
  ioutil_ReadFile w filename = Ok filecontent →
  json_Unmarshal filecontent = Err err0 →
  ∃ err,
    is_parse_error err = true ∧
    GetDirectoriesMetadataFiles w = Err err ∧
    GetPdfFiles w = Err err.
Proof.
  intros Hwalk Hbefore Hread Hjson.
  destruct (range_parse_error w before filename after filecontent err0
              Hbefore Hread Hjson) as (err & Hparse & Hdirs & Hpdfs).
  exists err. unfold GetDirectoriesMetadataFiles, GetPdfFiles.
  rewrite Hwalk. auto.
Qed.

(** C6.  If two requests of the list have the same name and that name is
    not on the device when [Sync] starts, then a run of [Sync] that ends
    without an error has made a completed transfer for the first and,
    later, another for the second: the upload of the first does not make
    the second one present. *)
Theorem Sync_does_not_deduplicate l1 a l2 b l3 s pdfFiles s' :
  GetPdfFiles (world s) = Ok pdfFiles →
  FileToSync_Filename a = FileToSync_Filename b →
  missing pdfFiles a →
  Sync (l1 ++ a :: l2 ++ b :: l3) s = (Returned None, s') →
  ∃ t1 ta t2 tb t3,
    transfer a ta ∧ transfer b tb ∧
    calls s' = calls s ++ t1 ++ ta ++ t2 ++ tb ++ t3.
Proof.
  intros Hscan Hname Ha Hsync.
  assert (missing pdfFiles b) as Hb by (unfold missing in *; by rewrite <-Hname).
  rewrite (Sync_scanned _ _ _ Hscan) in Hsync.
  apply Sync_range_transfers in Hsync as (traces & Htraces & ->).
  rewrite filter_app, filter_cons_True, filter_app, filter_cons_True in Htraces by done.
  apply Forall2_app_inv_l in Htraces as (ts1 & rest & _ & Hrest & ->).
  apply Forall2_cons_inv_l in Hrest as (ta & rest' & Hta & Hrest & ->).
  apply Forall2_app_inv_l in Hrest as (ts2 & rest & _ & Hrest & ->).
  apply Forall2_cons_inv_l in Hrest as (tb & ts3 & Htb & _ & ->).
  exists (concat ts1), ta, (concat ts2), tb, (concat ts3).
  split; [done|]. split; [done|].
  by rewrite concat_app, concat_cons, concat_app, concat_cons.
Qed.


(** C8.  Whatever bytes and filename [UploadPdfToTablet] is given, it sends
    at most one request, and when [http.NewRequest] accepts the fixed
    method and URL it sends exactly one: a POST to the upload endpoint whose
    body is one part and the closing delimiter.  The part is a file field
    under the name "file"; its payload is the given bytes, byte for byte;
    its filename parameter is the given filename as [escapeQuotes] writes
    it, which is the given filename exactly when it has no backslash, double
    quote, carriage return or line feed. *)
Theorem UploadPdfToTablet_posts_one_file_part fileContents filename s :
  match request_invalid "POST" upload_url with
  | Some _ => calls (UploadPdfToTablet fileContents filename s).2 = calls s
  | None =>
      ∃ boundary req reply,
        calls (UploadPdfToTablet fileContents filename s).2
        = calls s ++ [CallDo req reply] ∧
        Method req = "POST" ∧ URL req = upload_url ∧
        Header req !! "Content-Type"
        = Some ["multipart/form-data; boundary=" +:+ multipart.quoted_boundary boundary] ∧
        Body req
        = bytes_of ("--" +:+ boundary +:+ crlf)
          ++ bytes_of ("Content-Disposition: form-data; name=" +:+ dquote +:+ "file"
                       +:+ dquote +:+ "; filename=" +:+ dquote
                       +:+ multipart.escapeQuotes filename +:+ dquote +:+ crlf
                       +:+ "Content-Type: application/octet-stream" +:+ crlf)
          ++ bytes_of crlf
          ++ fileContents
          ++ bytes_of (crlf +:+ "--" +:+ boundary +:+ "--" +:+ crlf)
  end ∧
  (multipart.escapeQuotes filename = filename
   ↔ forallb plain (list_ascii_of_string filename) = true).
Proof.
  split; [|apply escapeQuotes_plain].
  rewrite UploadPdfToTablet_eq.
  destruct (random_boundary (world s)) as [boundary w1].
  destruct (request_invalid "POST" upload_url); [done|].
  cbv zeta. destruct (http_do _ w1) as [reply w2].
  exists boundary, (upload_request boundary filename fileContents), reply.
  repeat split.
Qed.

(** C9.  Take the state [s1] in which a first run of [Sync] ended and run
    [Sync] again on the same list.  The iteration of the second run for a
    request whose name is on the device in [s1] makes no call at all, so
    the second run is the run on the list without those requests; when
    every name is on the device, the second run makes no call and returns
    nil. *)
Theorem Sync_second_run_skips_present files s0 o1 s1 pdfFiles :
  Sync files s0 = (o1, s1) →
  GetPdfFiles (world s1) = Ok pdfFiles →
  (∀ item, item ∈ files → ¬ missing pdfFiles item →
     ∀ s, Sync_item (createRemarkableFileMap pdfFiles) item s = (Returned None, s)) ∧
  Sync files s1 = Sync (filter (missing pdfFiles) files) s1 ∧
  (Forall (fun item => ¬ missing pdfFiles item) files →
   Sync files s1 = (Returned None, s1)).
Proof.
  intros _ Hscan. split; [|split].
  - intros item _ Hpresent s. by apply Sync_item_present.
  - rewrite !(Sync_scanned _ _ _ Hscan). apply Sync_range_filter.
  - intros Hall. rewrite (Sync_scanned _ _ _ Hscan), Sync_range_filter.
    replace (filter (missing pdfFiles) files) with (@nil FileToSync); [done|].
    symmetry. induction Hall as [|item files Hitem _ IH]; [done|].
    by rewrite filter_cons_False.
Qed.

(** C10.  On the empty list [Sync] only scans: it returns nil when the
    documents query succeeds and the query's error when it fails, and in
    both cases leaves the world and the list of calls untouched. *)
Theorem Sync_nil s :
  Sync [] s =
  (Returned (match GetPdfFiles (world s) with
             | Ok _ => None
             | Err err => Some err
             end), s).
Proof. unfold Sync. by destruct (GetPdfFiles (world s)). Qed.

End Claims.

(** * The claims on the concrete tablet *)

Section OnTheTablet.
Import Tablet.

#[local] Existing Instance accepting.

(** C3.  On the shelf whose "Orphan" has, in the place of its content
    file, a link that points to itself, [os.Stat] on the sibling path fails
    (with ELOOP: there is no content file to find there), and the
    documents query lists "Orphan" all the same, next to "Report":
    [!os.IsNotExist(err)] holds for every error that is not a not-exist
    error. *)
Theorem GetPdfFiles_lists_document_behind_failing_stat :
  pdfFilename_of (meta "o1") = pdf "o1" ∧
  os_Stat looped (pdf "o1") = Some (PathError "stat" (pdf "o1") ELOOP) ∧
  GetPdfFiles looped = Ok [document "r1" "Report"; document "o1" "Orphan"].
Proof. by vm_compute. Qed.


(** C8, as it was claimed.  Given a filename with a line feed in it,
    [UploadPdfToTablet] sends a part whose filename parameter is another
    name, with "%0A" where the line feed was: the request is, byte for byte,
    the one it sends for that other name, and that name is what the device
    reads. *)
Lemma UploadPdfToTablet_rewrites_the_filename :
  two_lines ≠ "a%0Ab.pdf" ∧
  UploadPdfToTablet (list_byte_of_string "%PDF-1.4") two_lines (start shelf)
  = UploadPdfToTablet (list_byte_of_string "%PDF-1.4") "a%0Ab.pdf" (start shelf) ∧
  (∃ req,
     calls (UploadPdfToTablet (list_byte_of_string "%PDF-1.4") two_lines (start shelf)).2
     = [CallDo req None] ∧
     Body req
     = bytes_of ("--b0undary" +:+ crlf
                 +:+ "Content-Disposition: form-data; name=" +:+ dquote +:+ "file"
                 +:+ dquote +:+ "; filename=" +:+ dquote +:+ "a%0Ab.pdf" +:+ dquote
                 +:+ crlf +:+ "Content-Type: application/octet-stream" +:+ crlf
                 +:+ crlf +:+ "%PDF-1.4" +:+ crlf +:+ "--b0undary--" +:+ crlf) ∧
     received (Body req) = Some ("a%0Ab.pdf", list_byte_of_string "%PDF-1.4")).
Proof.
  split; [done|]. split; [by vm_compute|].
  eexists. split; [by vm_compute|]. split; by vm_compute.
Qed.

Lemma Sync_transfers_exactly_the_missing_witness :
  (∃ traces,
     Forall2 transfer (filter (missing on_shelf) wanted) traces ∧
     calls (Sync wanted (start shelf)).2 = calls (start shelf) ++ concat traces) ∧
  (∀ item, item ∈ wanted → ¬ missing on_shelf item →
     ∀ s1, Sync_item (createRemarkableFileMap on_shelf) item s1 = (Returned None, s1)).
Proof.
  apply (Sync_transfers_exactly_the_missing wanted (start shelf) on_shelf);
    by vm_compute.
Defined.

Lemma Sync_fails_fast_witness :
  Sync ([paper] ++ ghost :: [newdoc]) (start shelf)
  = (Returned (Some (TransportError "dial tcp: no such host")),
     (downloadPdfFile (FileToSync_Url ghost) (Sync [paper] (start shelf)).2).2).
Proof.
  apply (Sync_fails_fast [paper] ghost [newdoc] (start shelf) on_shelf
           (Sync [paper] (start shelf)).2).
  - by vm_compute.
  - by vm_compute.
  - apply (bool_decide_unpack (missing on_shelf ghost)). by vm_compute.
  - left. by vm_compute.
Defined.

Lemma GetDirectoriesMetadataFiles_selects_collections_witness :
  (∃ records,
     Forall2 (fun filename metadata => read_record shelf filename = Ok metadata)
       scanned records ∧
     [{| Filename := meta "n1"; VisibleName := "Notes" |}]
     = omap collection_entry (zip scanned records)) ∧
  (∀ filename metadata,
     filename ∈ scanned →
     read_record shelf filename = Ok metadata →
     ({| Filename := filename; VisibleName := Metadata_VisibleName metadata |}
        ∈ [{| Filename := meta "n1"; VisibleName := "Notes" |}]
      ↔ Metadata_Type metadata = "CollectionType")).
Proof.
  apply (GetDirectoriesMetadataFiles_selects_collections shelf scanned); by vm_compute.
Defined.

Lemma malformed_metadata_fails_scan_witness :
  ∃ err,
    is_parse_error err = true ∧
    GetDirectoriesMetadataFiles torn = Err err ∧
    GetPdfFiles torn = Err err.
Proof.
  apply (malformed_metadata_fails_scan torn [meta "n1"] (meta "r1") [meta "o1"; meta "t1"]
           (list_byte_of_string "{")
           (JSONError "invalid character looking for beginning of value")).
  - by vm_compute.
  - constructor; [|constructor]. exists (list_byte_of_string "CNotes"). by vm_compute.
  - by vm_compute.
  - by vm_compute.
Defined.

Lemma Sync_does_not_deduplicate_witness :
  ∃ t1 ta t2 tb t3,
    transfer newdoc ta ∧ transfer newdoc' tb ∧
    calls (Sync ([] ++ newdoc :: [paper] ++ newdoc' :: []) (start shelf)).2
    = calls (start shelf) ++ t1 ++ ta ++ t2 ++ tb ++ t3.
Proof.
  apply (Sync_does_not_deduplicate [] newdoc [paper] newdoc' [] (start shelf) on_shelf).
  - by vm_compute.
  - by vm_compute.
  - apply (bool_decide_unpack (missing on_shelf newdoc)). by vm_compute.
  - by vm_compute.
Defined.

Lemma Sync_second_run_skips_present_witness :
  (∀ item, item ∈ wanted → ¬ missing on_shelf' item →
     ∀ s, Sync_item (createRemarkableFileMap on_shelf') item s = (Returned None, s)) ∧
  Sync wanted (Sync wanted (start shelf)).2
  = Sync (filter (missing on_shelf') wanted) (Sync wanted (start shelf)).2 ∧
  (Forall (fun item => ¬ missing on_shelf' item) wanted →
   Sync wanted (Sync wanted (start shelf)).2
   = (Returned None, (Sync wanted (start shelf)).2)).
Proof.
  apply (Sync_second_run_skips_present wanted (start shelf) (Returned None)
           (Sync wanted (start shelf)).2 on_shelf'); by vm_compute.
Defined.

(** The scenarios of the specification, run. *)

Example shelf_collections :
  GetDirectoriesMetadataFiles shelf
  = Ok [{| Filename := meta "n1"; VisibleName := "Notes" |}].
Proof. by vm_compute. Qed.

Example shelf_documents : GetPdfFiles shelf = Ok on_shelf.
Proof. by vm_compute. Qed.

Example shelf_sync_calls :
  (Sync wanted (start shelf)).1 = Returned None ∧
  calls (Sync wanted (start shelf)).2
  = [CallGet "http://y/newdoc" (page "%PDF-1.4 new");
     CallDo (upload_request "b0undary" "NewDoc" (list_byte_of_string "%PDF-1.4 new"))
       None].
Proof. by vm_compute. Qed.

Example shelf_sync_again_is_silent :
  Sync wanted (Sync wanted (start shelf)).2
  = (Returned None, (Sync wanted (start shelf)).2).
Proof. by vm_compute. Qed.

Example ghost_stops_the_batch :
  calls (Sync [paper; ghost; newdoc] (start shelf)).2
  = [CallGet "http://z/paper" (page "%PDF-1.4 paper");
     CallDo (upload_request "b0undary" "Paper" (list_byte_of_string "%PDF-1.4 paper"))
       None;
     CallGet "http://nowhere/ghost" (inl "dial tcp: no such host")].
Proof. by vm_compute. Qed.

Example rejected_upload_stops_the_batch :
  (Sync [paper; newdoc] (start picky)).1
  = Returned (Some (TransportError "read tcp: connection reset by peer")) ∧
  calls (Sync [paper; newdoc] (start picky)).2
  = [CallGet "http://z/paper" (page "%PDF-1.4 paper");
     CallDo (upload_request "b0undary" "Paper" (list_byte_of_string "%PDF-1.4 paper"))
       (Some "read tcp: connection reset by peer")].
Proof. by vm_compute. Qed.

Example shelf_metadata_files : getMetadataFilenames shelf = Ok scanned.
Proof. by vm_compute. Qed.

End OnTheTablet.


(** * Further properties of the package *)

(** ** The walk *)

Section Walk.
Context {World : Type} `{!Platform World}.

Lemma chars_app s t : chars (s +:+ t) = chars s ++ chars t.
Proof. unfold chars. induction s as [|c s IH]; simpl; [done|by rewrite IH]. Qed.

Lemma append_inv_r s t suffix : s +:+ suffix = t +:+ suffix → s = t.
Proof.
  intros Heq. apply (f_equal chars) in Heq. rewrite !chars_app in Heq.
  apply app_inv_tail in Heq. by rewrite <-(str_chars s), Heq, str_chars.
Qed.

(** The extension of a path is ".metadata" exactly when the path ends in
    ".metadata". *)
Lemma Ext_metadata path :
  Ext path = ".metadata" ↔ ∃ base, path = base +:+ ".metadata".
Proof.
  split.
  - intros Hext. destruct (Ext_suffix path) as [base Hbase].
    exists base. by rewrite <-Hext.
  - intros [base ->]. unfold Ext. by rewrite chars_app, rev_app_distr.
Qed.

Lemma Walk_loop_outcome (visits : list Visit) (filenames out : list string) oerr :
  Walk_loop
    (fun (filenames : list string) path info =>
       match info with
       | inl err => (filenames, Some err)
       | inr info =>
           if IsDir info || negb (String.eqb (Ext path) ".metadata")
           then (filenames, None)
           else (filenames ++ [path], None)
       end) visits filenames = (out, oerr) →
  oerr = walk_error visits ∧
  (oerr = None → out = filenames ++ omap metadata_path visits).
Proof.
  revert filenames. induction visits as [|[path [err|info]] visits IH];
    intros filenames; simpl.
  - intros [= <- <-]. by rewrite app_nil_r.
  - by intros [= <- <-].
  - unfold walk_error, metadata_path at 1. simpl.
    destruct (IsDir info || negb (String.eqb (Ext path) ".metadata")).
    + apply IH.
    + intros [-> Hout]%IH. split; [done|].
      intros Hnone. by rewrite (Hout Hnone), <-app_assoc.
Qed.

(** X1.  [getMetadataFilenames] fails with the first error the walk comes
    with, whatever was collected before it; when the walk comes with none,
    it returns, in walk order, the paths of the visits that are not
    directories and whose extension is ".metadata". *)
Theorem getMetadataFilenames_walk (w : World) :
  getMetadataFilenames w =
  match walk_error (walk_visits w BaseDir) with
  | Some err => Err err
  | None => Ok (omap metadata_path (walk_visits w BaseDir))
  end.
Proof.
  unfold getMetadataFilenames, filepath_Walk.
  destruct (Walk_loop _ _ _) as [out oerr] eqn:Hwalk.
  apply Walk_loop_outcome in Hwalk as [<- Hout].
  destruct oerr; [done|]. by rewrite Hout.
Qed.

(** X2.  A path is among the metadata files exactly when the walk visited
    it without an error, as something that is not a directory, and the path
    ends in ".metadata". *)
Theorem getMetadataFilenames_elem (w : World) filenames path :
  getMetadataFilenames w = Ok filenames →
  path ∈ filenames ↔
  ∃ info base,
    {| visit_path := path; visit_info := inr info |} ∈ walk_visits w BaseDir ∧
    IsDir info = false ∧
    path = base +:+ ".metadata".
Proof.
  rewrite getMetadataFilenames_walk.
  destruct (walk_error _); [done|]. intros [= <-].
  rewrite list_elem_of_omap. split.
  - intros ([path' [err|info]] & Hin & Hpath); unfold metadata_path in Hpath;
      simpl in Hpath; [done|].
    destruct (IsDir info) eqn:Hdir; [done|]. simpl in Hpath.
    destruct (String.eqb (Ext path') ".metadata") eqn:Hext; [|done].
    injection Hpath as ->.
    apply String.eqb_eq, Ext_metadata in Hext as [base Hbase].
    by exists info, base.
  - intros (info & base & Hin & Hdir & Hbase).
    eexists. split; [exact Hin|].
    unfold metadata_path. simpl. rewrite Hdir. simpl.
    assert (Ext path = ".metadata") as -> by (apply Ext_metadata; by exists base).
    done.
Qed.

End Walk.

(** ** The two queries *)

Section Queries.
Context {World : Type} `{!Platform World}.

Implicit Types (w : World) (s : State World).

Lemma range_Err_iff w filenames directories pdfFiles err :
  GetDirectoriesMetadataFiles_range w filenames directories = Err err
  ↔ GetPdfFiles_range w filenames pdfFiles = Err err.
Proof.
  revert directories pdfFiles.
  induction filenames as [|filename filenames IH]; intros directories pdfFiles; simpl.
  - split; discriminate.
  - destruct (ioutil_ReadFile w filename) as [filecontent|]; [|done].
    destruct (json_Unmarshal filecontent) as [metadata|]; [|done].
    destruct (String.eqb _ "CollectionType"), (String.eqb _ "DocumentType");
      try destruct (negb _); apply IH.
Qed.

(** X3.  The collections query and the documents query fail on the same
    devices, and with the same error. *)
Theorem queries_fail_together w err :
  GetDirectoriesMetadataFiles w = Err err ↔ GetPdfFiles w = Err err.
Proof.
  unfold GetDirectoriesMetadataFiles, GetPdfFiles.
  destruct (getMetadataFilenames w) as [filenames|]; [|done].
  apply range_Err_iff.
Qed.

Lemma range_first_failure w before filename after err :
  Forall (fun f => ∃ metadata, read_record w f = Ok metadata) before →
  read_record w filename = Err err →
  (∀ directories,
     GetDirectoriesMetadataFiles_range w (before ++ filename :: after) directories
     = Err err) ∧
  (∀ pdfFiles, GetPdfFiles_range w (before ++ filename :: after) pdfFiles = Err err).
Proof.
  intros Hbefore Hbad.
  assert (∀ directories,
            GetDirectoriesMetadataFiles_range w (before ++ filename :: after) directories
            = Err err) as Hdirs.
  { induction Hbefore as [|f before [metadata Hf] _ IH]; intros directories; simpl.
    - unfold read_record in Hbad.
      destruct (ioutil_ReadFile w filename) as [filecontent|]; [|congruence].
      by rewrite Hbad.
    - unfold read_record in Hf.
      destruct (ioutil_ReadFile w f) as [filecontent|]; [|done].
      rewrite Hf. destruct (String.eqb _ _); apply IH. }
  split; [done|].
  intros pdfFiles. by apply (range_Err_iff w _ []).
Qed.

(** X4.  The first metadata file, in walk order, that cannot be read or
    cannot be decoded decides the outcome of everything that scans: both
    queries return its error, and so does [Sync], whatever it is asked to
    transfer, without a network call. *)
Theorem first_bad_metadata_file_decides s before filename after err files :
  getMetadataFilenames (world s) = Ok (before ++ filename :: after) →
  Forall (fun f => ∃ metadata, read_record (world s) f = Ok metadata) before →
  read_record (world s) filename = Err err →
  GetDirectoriesMetadataFiles (world s) = Err err ∧
  GetPdfFiles (world s) = Err err ∧
  Sync files s = (Returned (Some err), s).
Proof.
  intros Hwalk Hbefore Hbad.
  destruct (range_first_failure _ _ _ after _ Hbefore Hbad) as [Hdirs Hpdfs].
  unfold Sync, GetDirectoriesMetadataFiles, GetPdfFiles.
  by rewrite Hwalk, Hdirs, Hpdfs.
Qed.

(** X5.  An error anywhere in the walk of the base directory, even after
    every metadata file has been visited, fails both queries with that
    error, and [Sync] returns it without a network call. *)
Theorem walk_error_fails_everything s err files :
  walk_error (walk_visits (world s) BaseDir) = Some err →
  GetDirectoriesMetadataFiles (world s) = Err err ∧
  GetPdfFiles (world s) = Err err ∧
  Sync files s = (Returned (Some err), s).
Proof.
  intros Hwalk.
  unfold Sync, GetDirectoriesMetadataFiles, GetPdfFiles.
  by rewrite getMetadataFilenames_walk, Hwalk.
Qed.

Lemma records_unique w filenames records records' :
  Forall2 (fun filename metadata => read_record w filename = Ok metadata)
    filenames records →
  Forall2 (fun filename metadata => read_record w filename = Ok metadata)
    filenames records' →
  records = records'.
Proof.
  intros Hrecords. revert records'.
  induction Hrecords as [|filename metadata filenames records Hm _ IH];
    intros records' Hrecords'; inversion Hrecords' as [|? metadata' ? ? Hm']; subst.
  - done.
  - rewrite Hm in Hm'. injection Hm' as <-. f_equal. by apply IH.
Qed.

Lemma omap_exclusive_length {A B C : Type} (f : A → option B) (g : A → option C) l :
  (∀ x b, f x = Some b → g x = None) →
  length (omap f l) + length (omap g l) ≤ length l.
Proof.
  intros Hexclusive. induction l as [|x l IH]; csimpl; [done|].
  destruct (f x) as [b|] eqn:Hf.
  - rewrite (Hexclusive _ _ Hf). csimpl. lia.
  - destruct (g x); csimpl; lia.
Qed.

(** X6.  No metadata file is listed by both queries: the lengths of the
    two results add up to at most the number of metadata files. *)
Theorem queries_share_no_record w filenames directories pdfFiles :
  getMetadataFilenames w = Ok filenames →
  GetDirectoriesMetadataFiles w = Ok directories →
  GetPdfFiles w = Ok pdfFiles →
  length directories + length pdfFiles ≤ length filenames.
Proof.
  intros Hwalk Hdirs Hpdfs.
  unfold GetDirectoriesMetadataFiles, GetPdfFiles in *. rewrite Hwalk in *.
  apply GetDirectoriesMetadataFiles_range_Ok in Hdirs as (records & Hrecords & ->).
  apply GetPdfFiles_range_Ok in Hpdfs as (records' & Hrecords' & ->).
  rewrite <-(records_unique _ _ _ _ Hrecords Hrecords'). simpl.
  etrans; [apply omap_exclusive_length|].
  - intros [filename metadata] file.
    rewrite collection_entry_pair, document_entry_pair.
    destruct (String.eqb (Metadata_Type metadata) "CollectionType") eqn:Htype; [|done].
    apply String.eqb_eq in Htype as ->. done.
  - rewrite length_zip_with. apply Forall2_length in Hrecords. lia.
Qed.

(** X7.  Every entry of the documents query is made from a metadata file
    [base.metadata] of the walk whose record has the type "DocumentType": its
    path is [base.pdf], its name is the record's visible name, and [os.Stat]
    did not report that [base.pdf] does not exist. *)
Theorem GetPdfFiles_entries w filenames pdfFiles file :
  getMetadataFilenames w = Ok filenames →
  GetPdfFiles w = Ok pdfFiles →
  file ∈ pdfFiles →
  ∃ base metadata,
    base +:+ ".metadata" ∈ filenames ∧
    read_record w (base +:+ ".metadata") = Ok metadata ∧
    Metadata_Type metadata = "DocumentType" ∧
    os_IsNotExist (os_Stat w (base +:+ ".pdf")) = false ∧
    file = {| Filename := base +:+ ".pdf";
              VisibleName := Metadata_VisibleName metadata |}.
Proof.
  intros Hwalk Hpdfs Hin.
  unfold GetPdfFiles in Hpdfs. rewrite Hwalk in Hpdfs.
  apply GetPdfFiles_range_Ok in Hpdfs as (records & Hrecords & ->). simpl in Hin.
  apply list_elem_of_omap in Hin as ([filename metadata] & Hzip & Hentry).
  assert (filename ∈ filenames) as Hfilename
    by (apply (elem_of_zip_l _ _ _ _ Hzip)).
  apply (Forall2_zip_elem _ _ _ _ _ Hrecords) in Hzip.
  destruct (proj1 (getMetadataFilenames_elem _ _ _ Hwalk) Hfilename)
    as (_ & base & _ & _ & ->).
  rewrite document_entry_pair in Hentry.
  destruct (String.eqb (Metadata_Type metadata) "DocumentType") eqn:Htype; [|done].
  replace (pdfFilename_of (base +:+ ".metadata")) with (base +:+ ".pdf") in Hentry.
  - destruct (os_IsNotExist (os_Stat w (base +:+ ".pdf"))) eqn:Hstat; [done|].
    injection Hentry as <-. apply String.eqb_eq in Htype.
    by exists base, metadata.
  - unfold pdfFilename_of.
    assert (Ext (base +:+ ".metadata") = ".metadata") as ->
      by (apply Ext_metadata; by exists base).
    by rewrite TrimSuffix_app.
Qed.

End Queries.

(** ** Paths listed once *)

Section Once.
Context {World : Type} `{!Platform World}.

Implicit Types (w : World).

Lemma collection_paths_sublist filenames records :
  sublist (Filename <$> omap collection_entry (zip filenames records)) filenames.
Proof.
  revert records. induction filenames as [|filename filenames IH];
    intros [|metadata records]; try apply sublist_nil_l.
  rewrite omap_zip_cons, collection_entry_pair.
  destruct (String.eqb _ _); csimpl.
  - apply sublist_skip, IH.
  - apply sublist_cons, IH.
Qed.

Lemma document_paths_sublist w filenames records :
  sublist (Filename <$> omap (document_entry w) (zip filenames records))
    (pdfFilename_of <$> filenames).
Proof.
  revert records. induction filenames as [|filename filenames IH];
    intros [|metadata records]; try apply sublist_nil_l.
  rewrite omap_zip_cons, document_entry_pair.
  destruct (String.eqb _ _); [destruct (os_IsNotExist _)|]; csimpl.
  - apply sublist_cons, IH.
  - apply sublist_skip, IH.
  - apply sublist_cons, IH.
Qed.

Lemma pdfFilename_of_metadata base :
  pdfFilename_of (base +:+ ".metadata") = base +:+ ".pdf".
Proof.
  unfold pdfFilename_of.
  assert (Ext (base +:+ ".metadata") = ".metadata") as ->
    by (apply Ext_metadata; by exists base).
  by rewrite TrimSuffix_app.
Qed.

(** X8.  If the walk visits no metadata file twice, no path is listed
    twice: not by the collections query, and not by the documents query,
    where two metadata files never share their content path. *)
Theorem queries_list_each_path_once w filenames directories pdfFiles :
  getMetadataFilenames w = Ok filenames →
  NoDup filenames →
  GetDirectoriesMetadataFiles w = Ok directories →
  GetPdfFiles w = Ok pdfFiles →
  NoDup (Filename <$> directories) ∧ NoDup (Filename <$> pdfFiles).
Proof.
  intros Hwalk Hnodup Hdirs Hpdfs.
  unfold GetDirectoriesMetadataFiles, GetPdfFiles in *. rewrite Hwalk in *.
  apply GetDirectoriesMetadataFiles_range_Ok in Hdirs as (records & _ & ->).
  apply GetPdfFiles_range_Ok in Hpdfs as (records' & _ & ->). simpl. split.
  - eapply sublist_NoDup; [done|apply collection_paths_sublist].
  - eapply sublist_NoDup; [|apply document_paths_sublist].
    apply NoDup_fmap_2_strong; [|done].
    intros f1 f2 Hf1 Hf2.
    destruct (proj1 (getMetadataFilenames_elem _ _ _ Hwalk) Hf1) as (_ & b1 & _ & _ & ->).
    destruct (proj1 (getMetadataFilenames_elem _ _ _ Hwalk) Hf2) as (_ & b2 & _ & _ & ->).
    rewrite !pdfFilename_of_metadata. by intros ->%append_inv_r.
Qed.

End Once.

(** ** The inventory *)

Section Inventory.
Context {World : Type} `{!Platform World}.

Implicit Types (w : World) (pdfFiles : list RemarkableFile).

Lemma createRemarkableFileMap_lookup_Some pdfFiles name :
  createRemarkableFileMap pdfFiles !! name = Some () ↔ name ∈ names pdfFiles.
Proof.
  destruct (createRemarkableFileMap pdfFiles !! name) as [[]|] eqn:Hlookup.
  - split; [|done]. intros _.
    destruct (decide (name ∈ names pdfFiles)) as [|Hnot]; [done|].
    apply createRemarkableFileMap_lookup in Hnot. congruence.
  - apply createRemarkableFileMap_lookup in Hlookup. split; [done|]. by intros ?.
Qed.

(** X9.  The keys of the map built by [createRemarkableFileMap] are exactly
    the visible names of the files it is given. *)
Theorem createRemarkableFileMap_dom pdfFiles :
  dom (createRemarkableFileMap pdfFiles) = list_to_set (names pdfFiles).
Proof.
  apply set_eq. intros name.
  rewrite elem_of_dom, elem_of_list_to_set, <-createRemarkableFileMap_lookup_Some.
  split; [by intros [[] ?]|by eexists].
Qed.

(** X10.  The map does not depend on the order of the files nor on how
    often a name occurs: two lists with the same names give the same map. *)
Theorem createRemarkableFileMap_same_names pdfFiles pdfFiles' :
  (∀ name, name ∈ names pdfFiles ↔ name ∈ names pdfFiles') →
  createRemarkableFileMap pdfFiles = createRemarkableFileMap pdfFiles'.
Proof.
  intros Hnames. apply map_eq. intros name.
  destruct (createRemarkableFileMap pdfFiles' !! name) as [[]|] eqn:Hlookup.
  - by apply createRemarkableFileMap_lookup_Some, Hnames,
      createRemarkableFileMap_lookup_Some.
  - apply createRemarkableFileMap_lookup. rewrite Hnames.
    by apply createRemarkableFileMap_lookup.
Qed.

(** X11.  A name is in the inventory [Sync] works with exactly when some
    metadata file of the walk has a record of type "DocumentType" with that
    visible name, and [os.Stat] on its content path did not report that the
    path does not exist.  Collections, and documents known not to have a
    content file, do not count. *)
Theorem inventory_lookup w filenames pdfFiles name :
  getMetadataFilenames w = Ok filenames →
  GetPdfFiles w = Ok pdfFiles →
  createRemarkableFileMap pdfFiles !! name = Some () ↔
  ∃ filename metadata,
    filename ∈ filenames ∧
    read_record w filename = Ok metadata ∧
    Metadata_Type metadata = "DocumentType" ∧
    Metadata_VisibleName metadata = name ∧
    os_IsNotExist (os_Stat w (pdfFilename_of filename)) = false.
Proof.
  intros Hwalk Hpdfs. rewrite createRemarkableFileMap_lookup_Some.
  unfold GetPdfFiles in Hpdfs. rewrite Hwalk in Hpdfs.
  apply GetPdfFiles_range_Ok in Hpdfs as (records & Hrecords & ->).
  unfold names. rewrite list_elem_of_fmap. simpl. split.
  - intros (file & -> & ([filename metadata] & Hzip & Hentry)%list_elem_of_omap).
    rewrite document_entry_pair in Hentry.
    destruct (String.eqb (Metadata_Type metadata) "DocumentType") eqn:Htype; [|done].
    destruct (os_IsNotExist _) eqn:Hstat; [done|]. injection Hentry as <-.
    exists filename, metadata. apply String.eqb_eq in Htype.
    split; [by eapply elem_of_zip_l|].
    split; [by apply (Forall2_zip_elem _ _ _ _ _ Hrecords)|done].
  - intros (filename & metadata & Hin & Hrecord & Htype & <- & Hstat).
    exists {| Filename := pdfFilename_of filename;
              VisibleName := Metadata_VisibleName metadata |}.
    split; [done|]. apply list_elem_of_omap.
    destruct (Forall2_elem_zip _ _ _ _ Hrecords Hin) as (metadata' & Hzip & Hrecord').
    rewrite Hrecord in Hrecord'. injection Hrecord' as <-.
    exists (filename, metadata). split; [done|].
    rewrite document_entry_pair, Hstat.
    by apply String.eqb_eq in Htype as ->.
Qed.

(** X19.  When the documents query succeeds, the record of a document is
    listed, under its content path and visible name, unless [os.Stat] on the
    content path fails with ENOENT: it is listed when the path can be
    stat'ed, and also when the stat fails in any other way. *)
Theorem GetPdfFiles_lists_unless_ENOENT w filenames pdfFiles filename metadata :
  getMetadataFilenames w = Ok filenames →
  GetPdfFiles w = Ok pdfFiles →
  filename ∈ filenames →
  read_record w filename = Ok metadata →
  Metadata_Type metadata = "DocumentType" →
  {| Filename := pdfFilename_of filename;
     VisibleName := Metadata_VisibleName metadata |} ∈ pdfFiles
  ↔ stat w (pdfFilename_of filename) ≠ Some ENOENT.
Proof.
  intros Hwalk Hpdfs Hin Hrecord Htype.
  destruct (GetPdfFiles_lists_unless_IsNotExist w filenames pdfFiles Hwalk Hpdfs)
    as [_ Hlisted].
  rewrite (Hlisted filename metadata Hin Hrecord Htype).
  unfold os_Stat. by destruct (stat w (pdfFilename_of filename)) as [[]|].
Qed.

End Inventory.

(** ** Fetching, uploading and the loop *)

Section Loop.
Context {World : Type} `{!Platform World}.

Implicit Types (s : State World) (item : FileToSync) (pdfFiles : list RemarkableFile).

(** X12.  [downloadPdfFile] does not look at the status of the response:
    whatever the status code, a response whose body can be read is a
    success, and the body is what is returned; exactly one GET is made. *)
Theorem downloadPdfFile_ignores_status url s status body w' :
  http_get url (world s)
  = (inr {| StatusCode := status; ResponseBody := inr body |}, w') →
  downloadPdfFile url s =
  (Returned (Ok body),
   {| world := w';
      calls := calls s ++
               [CallGet url (inr {| StatusCode := status; ResponseBody := inr body |})] |}).
Proof. intros Hget. by rewrite downloadPdfFile_eq, Hget. Qed.

(** X13.  When [http.NewRequest] accepts the fixed method and URL,
    [UploadPdfToTablet] returns: it makes exactly one POST, whose headers
    are Content-Type, Accept ("*/*") and Connection ("keep-alive") and no
    other, and it returns an error exactly when the round trip reports
    one. *)
Theorem UploadPdfToTablet_round_trip fileContents filename s :
  request_invalid "POST" upload_url = None →
  ∃ req reply s',
    UploadPdfToTablet fileContents filename s = (Returned (TransportError <$> reply), s') ∧
    calls s' = calls s ++ [CallDo req reply] ∧
    dom (Header req) = {["Content-Type"; "Accept"; "Connection"]} ∧
    Header req !! "Accept" = Some ["*/*"] ∧
    Header req !! "Connection" = Some ["keep-alive"].
Proof.
  intros Hvalid.
  destruct (UploadPdfToTablet_returns fileContents filename s Hvalid)
    as (boundary & reply & s' & Hupload & Hcalls).
  exists (upload_request boundary filename fileContents), reply, s'.
  split; [done|]. split; [done|]. split; [|done].
  unfold upload_request. simpl.
  rewrite !dom_insert_L, dom_empty_L. set_solver.
Qed.

Lemma Sync_item_outcome pdfFiles item s o s' :
  missing pdfFiles item →
  Sync_item (createRemarkableFileMap pdfFiles) item s = (o, s') →
  ∃ trace,
    calls s' = calls s ++ trace ∧
    match o with
    | Returned None => transfer item trace
    | Returned (Some err) => failed_transfer item err trace
    | Panicked _ => cut_transfer item trace
    end.
Proof.
  intros Hmissing. rewrite Sync_item_missing, downloadPdfFile_eq by done.
  destruct (http_get _ (world s)) as [[msg|response] w1].
  { intros [= <- <-]. eexists. split; [reflexivity|]. left. by exists msg. }
  unfold ioutil_ReadAll.
  destruct (ResponseBody response) as [msg|fileContents] eqn:Hbody.
  { intros [= <- <-]. eexists. split; [reflexivity|]. right. left.
    by exists response, msg. }
  rewrite UploadPdfToTablet_eq. simpl.
  destruct (random_boundary w1) as [boundary w2].
  destruct (request_invalid "POST" upload_url).
  { intros [= <- <-]. eexists. split; [reflexivity|].
    by exists response, fileContents. }
  destruct (http_do _ w2) as [[msg|] w3]; intros [= <- <-]; eexists;
    (split; [simpl; by rewrite <-app_assoc|]).
  - right. right. by exists response, fileContents, boundary, msg.
  - by exists response, fileContents, boundary.
Qed.

Lemma Sync_range_trace pdfFiles files s o s' :
  Sync_range (createRemarkableFileMap pdfFiles) files s = (o, s') →
  ∃ done rest traces tail,
    filter (missing pdfFiles) files = done ++ rest ∧
    Forall2 transfer done traces ∧
    calls s' = calls s ++ concat traces ++ tail ∧
    match o with
    | Returned None => rest = [] ∧ tail = []
    | Returned (Some err) =>
        ∃ item rest', rest = item :: rest' ∧ failed_transfer item err tail
    | Panicked _ => ∃ item rest', rest = item :: rest' ∧ cut_transfer item tail
    end.
Proof.
  revert s. induction files as [|item files IH]; intros s.
  - intros [= <- <-]. exists [], [], [], []. simpl. by rewrite app_nil_r.
  - rewrite Sync_range_cons.
    destruct (decide (missing pdfFiles item)) as [Hmissing|Hpresent].
    + rewrite filter_cons_True by done.
      destruct (Sync_item _ item s) as [o1 s1] eqn:Hitem.
      destruct (Sync_item_outcome _ _ _ _ _ Hmissing Hitem) as (trace & Hs1 & Ho1).
      destruct o1 as [[err|]|msg].
      * intros [= <- <-].
        exists [], (item :: filter (missing pdfFiles) files), [], trace.
        split; [done|]. split; [constructor|]. split; [done|]. by eexists _, _.
      * intros (done & rest & traces & tail & Hfilter & Htraces & Hcalls & Ho)%IH.
        exists (item :: done), rest, (trace :: traces), tail.
        split; [by rewrite Hfilter|]. split; [by constructor|].
        split; [|done]. simpl. by rewrite Hcalls, Hs1, <-!app_assoc.
      * intros [= <- <-].
        exists [], (item :: filter (missing pdfFiles) files), [], trace.
        split; [done|]. split; [constructor|]. split; [done|]. by eexists _, _.
    + rewrite filter_cons_False, Sync_item_present by done. apply IH.
Qed.

(** X14.  However [Sync] ends, the calls it made are completed transfers
    for the first missing requests of the list, in order, followed, unless
    it returned nil, by what was made for the next missing request: a
    transfer that stopped with the error returned, or, if the uploader
    panicked, the GET alone.  Returning nil means every missing request was
    transferred. *)
Theorem Sync_trace files s pdfFiles o s' :
  GetPdfFiles (world s) = Ok pdfFiles →
  Sync files s = (o, s') →
  ∃ done rest traces tail,
    filter (missing pdfFiles) files = done ++ rest ∧
    Forall2 transfer done traces ∧
    calls s' = calls s ++ concat traces ++ tail ∧
    match o with
    | Returned None => rest = [] ∧ tail = []
    | Returned (Some err) =>
        ∃ item rest', rest = item :: rest' ∧ failed_transfer item err tail
    | Panicked _ => ∃ item rest', rest = item :: rest' ∧ cut_transfer item tail
    end.
Proof.
  intros Hscan. rewrite (Sync_scanned _ _ _ Hscan). apply Sync_range_trace.
Qed.

Lemma transfer_length item trace : transfer item trace → length trace = 2.
Proof. by intros (? & ? & ? & _ & ->). Qed.

Lemma concat_transfers_length (done : list FileToSync) traces :
  Forall2 transfer done traces → length (concat traces) = 2 * length done.
Proof.
  induction 1 as [|item trace done traces Htrace _ IH]; [done|].
  simpl. rewrite length_app, (transfer_length _ _ Htrace), IH. lia.
Qed.

(** X15.  [Sync] makes at most two network calls for each request whose
    name is missing from the device, and none if no name is missing. *)
Theorem Sync_call_budget files s pdfFiles o s' :
  GetPdfFiles (world s) = Ok pdfFiles →
  Sync files s = (o, s') →
  length (calls s') ≤ length (calls s) + 2 * length (filter (missing pdfFiles) files).
Proof.
  intros Hscan Hsync. rewrite (Sync_scanned _ _ _ Hscan) in Hsync.
  apply Sync_range_trace in Hsync
    as (done & rest & traces & tail & -> & Htraces & -> & Ho).
  rewrite !length_app, (concat_transfers_length _ _ Htraces).
  assert (length tail ≤ 2 * length rest); [|lia].
  destruct o as [[err|]|msg].
  - destruct Ho as (item & rest' & -> & [(? & _ & ->)|[(? & ? & _ & _ & ->)
      |(? & ? & ? & ? & _ & _ & ->)]]); simpl; lia.
  - destruct Ho as [-> ->]. simpl. lia.
  - destruct Ho as (item & rest' & -> & (? & ? & _ & ->)). simpl. lia.
Qed.

Lemma Sync_item_calls_for pdfFiles item s o s' :
  missing pdfFiles item →
  Sync_item (createRemarkableFileMap pdfFiles) item s = (o, s') →
  ∃ new, calls s' = calls s ++ new ∧ Forall (call_for item) new.
Proof.
  intros Hmissing Hitem.
  destruct (Sync_item_outcome _ _ _ _ _ Hmissing Hitem) as (trace & Hcalls & Ho).
  exists trace. split; [done|].
  destruct o as [[err|]|msg].
  - destruct Ho as [(? & _ & ->)|[(? & ? & _ & _ & ->)|(? & ? & ? & ? & _ & _ & ->)]];
      repeat constructor. by eexists _, _.
  - destruct Ho as (? & ? & ? & _ & ->). repeat constructor. by eexists _, _.
  - destruct Ho as (? & ? & _ & ->). by repeat constructor.
Qed.

(** X16.  However [Sync] ends, every call it made belongs to a request of
    the list whose name is missing from the device: a GET goes to the URL of
    such a request, and a POST carries a one-part form under the name of
    such a request.  Nothing is fetched or uploaded for a name that is on
    the device. *)
Theorem Sync_calls_only_for_missing files s pdfFiles o s' :
  GetPdfFiles (world s) = Ok pdfFiles →
  Sync files s = (o, s') →
  ∃ new,
    calls s' = calls s ++ new ∧
    Forall (fun c => ∃ item, item ∈ files ∧ missing pdfFiles item ∧ call_for item c) new.
Proof.
  intros Hscan. rewrite (Sync_scanned _ _ _ Hscan). clear Hscan.
  revert s. induction files as [|item files IH]; intros s.
  - intros [= <- <-]. exists []. by rewrite app_nil_r.
  - rewrite Sync_range_cons.
    assert (∀ s1, Sync_range (createRemarkableFileMap pdfFiles) files s1 = (o, s') →
              ∃ new, calls s' = calls s1 ++ new ∧
                Forall (fun c => ∃ item', item' ∈ item :: files ∧
                                  missing pdfFiles item' ∧ call_for item' c) new) as IH'.
    { intros s1 (new & Hnew & Hfor)%IH. exists new. split; [done|].
      eapply Forall_impl; [exact Hfor|].
      intros c (item' & Hin & ?). exists item'. split; [by right|done]. }
    destruct (decide (missing pdfFiles item)) as [Hmissing|Hpresent].
    + destruct (Sync_item _ item s) as [o1 s1] eqn:Hitem.
      destruct (Sync_item_calls_for _ _ _ _ _ Hmissing Hitem) as (new1 & Hs1 & Hfor1).
      assert (Forall (fun c => ∃ item', item' ∈ item :: files ∧
                                missing pdfFiles item' ∧ call_for item' c) new1) as Hfor1'.
      { eapply Forall_impl; [exact Hfor1|].
        intros c Hc. exists item. split; [by left|done]. }
      destruct o1 as [[err|]|msg].
      * intros [= <- <-]. by exists new1.
      * intros (new & Hnew & Hfor)%IH'. exists (new1 ++ new).
        split; [by rewrite Hnew, Hs1, <-app_assoc|by apply Forall_app].
      * intros [= <- <-]. by exists new1.
    + rewrite Sync_item_present by done. apply IH'.
Qed.

Lemma Sync_range_stops inv l1 l2 s o s1 :
  Sync_range inv l1 s = (o, s1) →
  o ≠ Returned None →
  Sync_range inv (l1 ++ l2) s = (o, s1).
Proof.
  revert s. induction l1 as [|item l1 IH]; intros s.
  - by intros [= <- <-].
  - simpl app. rewrite !Sync_range_cons.
    destruct (Sync_item inv item s) as [[[err|]|msg] s0]; [done| |done].
    apply IH.
Qed.

(** X17.  If [Sync] on a list of requests does not return nil (the scan
    failed, a transfer failed, or the uploader panicked), then [Sync] on any
    longer list that starts with these requests ends in the same way and in
    the same state: nothing is done for the requests that follow. *)
Theorem Sync_stops_for_good l1 l2 s o s1 :
  Sync l1 s = (o, s1) →
  o ≠ Returned None →
  Sync (l1 ++ l2) s = (o, s1).
Proof.
  unfold Sync. destruct (GetPdfFiles (world s)) as [pdfFiles|err]; [|done].
  apply Sync_range_stops.
Qed.

Lemma Sync_range_agree inv inv' files s :
  (∀ item, item ∈ files →
     inv !! FileToSync_Filename item = inv' !! FileToSync_Filename item) →
  Sync_range inv files s = Sync_range inv' files s.
Proof.
  revert s. induction files as [|item files IH]; intros s Hagree; [done|].
  rewrite !Sync_range_cons.
  assert (Sync_item inv item s = Sync_item inv' item s) as <-.
  { unfold Sync_item. rewrite (Hagree item) by (by left). done. }
  destruct (Sync_item inv item s) as [[[err|]|msg] s1]; [done| |done].
  apply IH. intros item' Hin. apply Hagree. by right.
Qed.

(** X18.  One [Sync] of a list in two parts is the [Sync] of the first part
    followed by the [Sync] of the second, provided the first ends with nil
    and leaves the names of the second part as they were: on the device or
    missing, before and after.  (The single call scans once; the second of
    two calls scans again.) *)
Theorem Sync_in_two_calls l1 l2 s s1 pdfFiles pdfFiles1 :
  GetPdfFiles (world s) = Ok pdfFiles →
  Sync l1 s = (Returned None, s1) →
  GetPdfFiles (world s1) = Ok pdfFiles1 →
  (∀ item, item ∈ l2 → missing pdfFiles item ↔ missing pdfFiles1 item) →
  Sync (l1 ++ l2) s = Sync l2 s1.
Proof.
  intros Hscan Hfirst Hscan1 Hsame.
  rewrite (Sync_scanned _ _ _ Hscan) in Hfirst.
  rewrite (Sync_scanned _ _ _ Hscan), (Sync_scanned _ _ _ Hscan1).
  rewrite (Sync_range_app _ _ _ _ _ Hfirst).
  apply Sync_range_agree. intros item Hin.
  destruct (decide (missing pdfFiles item)) as [Hmissing|Hpresent].
  - pose proof (proj1 (Hsame item Hin) Hmissing) as Hmissing1.
    apply createRemarkableFileMap_lookup in Hmissing, Hmissing1. congruence.
  - assert (¬ missing pdfFiles1 item) as Hpresent1 by (by rewrite <-Hsame).
    unfold missing in Hpresent, Hpresent1.
    apply dec_stable, createRemarkableFileMap_lookup_Some in Hpresent, Hpresent1.
    congruence.
Qed.

End Loop.

(** * The further properties on the concrete tablet *)

Section FurtherOnTheTablet.
Import Tablet.

#[local] Existing Instance accepting.

Lemma getMetadataFilenames_elem_witness :
  meta "r1" ∈ scanned ↔
  ∃ info base,
    {| visit_path := meta "r1"; visit_info := inr info |} ∈ walk_visits shelf BaseDir ∧
    IsDir info = false ∧
    meta "r1" = base +:+ ".metadata".
Proof. apply (getMetadataFilenames_elem shelf scanned (meta "r1")). by vm_compute. Defined.

Lemma first_bad_metadata_file_decides_witness :
  GetDirectoriesMetadataFiles unreadable = Err (PathError "open" (meta "r1") EACCES) ∧
  GetPdfFiles unreadable = Err (PathError "open" (meta "r1") EACCES) ∧
  Sync wanted (start unreadable)
  = (Returned (Some (PathError "open" (meta "r1") EACCES)), start unreadable).
Proof.
  apply (first_bad_metadata_file_decides (start unreadable)
           [meta "n1"] (meta "r1") [meta "o1"; meta "t1"]).
  - by vm_compute.
  - constructor; [|constructor]. exists (record "CollectionType" "Notes"). by vm_compute.
  - by vm_compute.
Defined.

Lemma walk_error_fails_everything_witness :
  GetDirectoriesMetadataFiles locked
  = Err (PathError "open" (BaseDir +:+ "trash") EACCES) ∧
  GetPdfFiles locked = Err (PathError "open" (BaseDir +:+ "trash") EACCES) ∧
  Sync wanted (start locked)
  = (Returned (Some (PathError "open" (BaseDir +:+ "trash") EACCES)), start locked).
Proof. apply (walk_error_fails_everything (start locked)). by vm_compute. Defined.

Lemma queries_share_no_record_witness :
  length [{| Filename := meta "n1"; VisibleName := "Notes" |}] + length on_shelf
  ≤ length scanned.
Proof. apply (queries_share_no_record shelf); by vm_compute. Defined.

Lemma GetPdfFiles_entries_witness :
  ∃ base metadata,
    base +:+ ".metadata" ∈ scanned ∧
    read_record shelf (base +:+ ".metadata") = Ok metadata ∧
    Metadata_Type metadata = "DocumentType" ∧
    os_IsNotExist (os_Stat shelf (base +:+ ".pdf")) = false ∧
    document "r1" "Report"
    = {| Filename := base +:+ ".pdf"; VisibleName := Metadata_VisibleName metadata |}.
Proof.
  apply (GetPdfFiles_entries shelf scanned on_shelf).
  - by vm_compute.
  - by vm_compute.
  - apply list_elem_of_singleton. reflexivity.
Defined.

Lemma queries_list_each_path_once_witness :
  NoDup (Filename <$> [{| Filename := meta "n1"; VisibleName := "Notes" |}]) ∧
  NoDup (Filename <$> on_shelf).
Proof.
  apply (queries_list_each_path_once shelf scanned).
  - by vm_compute.
  - apply (bool_decide_unpack (NoDup scanned)). by vm_compute.
  - by vm_compute.
  - by vm_compute.
Defined.

Lemma createRemarkableFileMap_same_names_witness :
  createRemarkableFileMap on_shelf'
  = createRemarkableFileMap
      [document "x" "NewDoc"; document "r1" "Report"; document "y" "NewDoc"].
Proof.
  apply createRemarkableFileMap_same_names.
  intros name. unfold names. simpl. rewrite !elem_of_cons, !elem_of_nil. tauto.
Defined.

Lemma inventory_lookup_witness :
  createRemarkableFileMap on_shelf !! "Report" = Some () ↔
  ∃ filename metadata,
    filename ∈ scanned ∧
    read_record shelf filename = Ok metadata ∧
    Metadata_Type metadata = "DocumentType" ∧
    Metadata_VisibleName metadata = "Report" ∧
    os_IsNotExist (os_Stat shelf (pdfFilename_of filename)) = false.
Proof. apply (inventory_lookup shelf scanned on_shelf "Report"); by vm_compute. Defined.

Lemma downloadPdfFile_ignores_status_witness :
  downloadPdfFile "http://y/newdoc" (start moved)
  = (Returned (Ok (list_byte_of_string "404 page not found")),
     {| world := moved; calls := calls (start moved) ++ [CallGet "http://y/newdoc" (inr gone)] |}).
Proof.
  apply (downloadPdfFile_ignores_status "http://y/newdoc" (start moved) 404
           (list_byte_of_string "404 page not found") moved).
  by vm_compute.
Defined.

Lemma UploadPdfToTablet_round_trip_witness :
  ∃ req reply s',
    UploadPdfToTablet (list_byte_of_string "%PDF-1.4") "a.pdf" (start shelf)
    = (Returned (TransportError <$> reply), s') ∧
    calls s' = calls (start shelf) ++ [CallDo req reply] ∧
    dom (Header req) = {["Content-Type"; "Accept"; "Connection"]} ∧
    Header req !! "Accept" = Some ["*/*"] ∧
    Header req !! "Connection" = Some ["keep-alive"].
Proof. apply UploadPdfToTablet_round_trip. by vm_compute. Defined.

Lemma Sync_trace_witness :
  ∃ done rest traces tail,
    filter (missing on_shelf) [paper; ghost; newdoc] = done ++ rest ∧
    Forall2 transfer done traces ∧
    calls (Sync [paper; ghost; newdoc] (start shelf)).2
    = calls (start shelf) ++ concat traces ++ tail ∧
    ∃ item rest',
      rest = item :: rest' ∧
      failed_transfer item (TransportError "dial tcp: no such host") tail.
Proof.
  apply (Sync_trace [paper; ghost; newdoc] (start shelf) on_shelf
           (Returned (Some (TransportError "dial tcp: no such host"))));
    by vm_compute.
Defined.

Lemma Sync_call_budget_witness :
  length (calls (Sync wanted (start shelf)).2)
  ≤ length (calls (start shelf)) + 2 * length (filter (missing on_shelf) wanted).
Proof.
  apply (Sync_call_budget wanted (start shelf) on_shelf (Returned None)); by vm_compute.
Defined.

Lemma Sync_calls_only_for_missing_witness :
  ∃ new,
    calls (Sync wanted (start shelf)).2 = calls (start shelf) ++ new ∧
    Forall (fun c => ∃ item, item ∈ wanted ∧ missing on_shelf item ∧ call_for item c) new.
Proof.
  apply (Sync_calls_only_for_missing wanted (start shelf) on_shelf (Returned None));
    by vm_compute.
Defined.

Lemma Sync_stops_for_good_witness :
  Sync ([paper; ghost] ++ [newdoc]) (start shelf)
  = (Returned (Some (TransportError "dial tcp: no such host")),
     (Sync [paper; ghost] (start shelf)).2).
Proof.
  apply (Sync_stops_for_good [paper; ghost] [newdoc] (start shelf)).
  - by vm_compute.
  - discriminate.
Defined.

Lemma Sync_in_two_calls_witness :
  Sync ([paper] ++ [newdoc]) (start shelf)
  = Sync [newdoc] (Sync [paper] (start shelf)).2.
Proof.
  apply (Sync_in_two_calls [paper] [newdoc] (start shelf)
           (Sync [paper] (start shelf)).2 on_shelf
           [document "r1" "Report"; document "Paper" "Paper"]).
  - by vm_compute.
  - by vm_compute.
  - by vm_compute.
  - intros item ->%list_elem_of_singleton.
    split; intros _.
    + apply (bool_decide_unpack
               (missing [document "r1" "Report"; document "Paper" "Paper"] newdoc)).
      by vm_compute.
    + apply (bool_decide_unpack (missing on_shelf newdoc)). by vm_compute.
Defined.

Lemma GetPdfFiles_lists_unless_ENOENT_witness :
  {| Filename := pdfFilename_of (meta "o1");
     VisibleName := Metadata_VisibleName (record "DocumentType" "Orphan") |}
    ∈ [document "r1" "Report"; document "o1" "Orphan"]
  ↔ stat looped (pdfFilename_of (meta "o1")) ≠ Some ENOENT.
Proof.
  apply (GetPdfFiles_lists_unless_ENOENT looped scanned
           [document "r1" "Report"; document "o1" "Orphan"] (meta "o1")
           (record "DocumentType" "Orphan")).
  - by vm_compute.
  - by vm_compute.
  - apply (bool_decide_unpack (meta "o1" ∈ scanned)). by vm_compute.
  - by vm_compute.
  - by vm_compute.
Defined.

(** The page of a server that answers 404 is uploaded as the document. *)
Example moved_page_is_uploaded :
  Sync [newdoc] (start moved)
  = (Returned None,
     {| world := store moved "NewDoc" (list_byte_of_string "404 page not found");
        calls := [CallGet "http://y/newdoc" (inr gone);
                  CallDo (upload_request "b0undary" "NewDoc"
                            (list_byte_of_string "404 page not found")) None] |}).
Proof. by vm_compute. Qed.

(** Two requests under one name: one call uploads both, two calls upload
    the first only. *)
Example one_call_is_not_two_calls :
  length (calls (Sync [newdoc; newdoc'] (start shelf)).2) = 4 ∧
  length (calls (Sync [newdoc'] (Sync [newdoc] (start shelf)).2).2) = 2.
Proof. by vm_compute. Qed.

End FurtherOnTheTablet.
